(** * crm/schema.py: the four GraphQL mutations of the CRM back end

    A shallow embedding of [CreateCustomer], [BulkCreateCustomers],
    [CreateProduct] and [CreateOrder] (the [mutate] resolvers of
    crm/schema.py) over an explicit relational store, with the phone
    pattern of the source interpreted by a small backtracking matcher.

    Conventions.
    - A Python [str] is a [string]: one [ascii] per code point, so the
      model covers the strings whose code points are below 256.  On that
      range the class [\d] of a [str] pattern is exactly [0-9].
    - An optional GraphQL argument is an [option]; [None] is Python's
      [None].  Where a resolver tells an argument left out from one given
      as [null], the argument is an [argument].
    - A [graphene.ID] is the string the resolver receives; the ORM turns
      it into a key when it looks a row up.
    - A resolver is a function from the store before the call to its
      result and the store after the call. *)

From Stdlib Require Import List String Ascii ZArith QArith Bool Arith Lia.
From Stdlib Require Import Floats.
Import ListNotations.

Local Open Scope string_scope.
Local Open Scope list_scope.

(* ------------------------------------------------------------------ *)
(** ** The regular expressions of [re], as far as the source uses them *)
(* ------------------------------------------------------------------ *)

(** Python's truth value of a list. *)
Definition nonempty {A : Type} (l : list A) : bool :=
  match l with
  | [] => false
  | _ :: _ => true
  end.

Module Re.

(** Abstract syntax of the pattern language used by the phone check. *)
Inductive regex : Type :=
| Bol                                (* ^       *)
| Eol                                (* $       *)
| Chr (c : ascii)                    (* literal *)
| Digit                              (* \d      *)
| Cat (r1 r2 : regex)                (* r1 r2   *)
| Alt (r1 r2 : regex)                (* r1|r2   *)
| Opt (r : regex)                    (* r?      *)
| Rep (lo hi : nat) (r : regex).     (* r{lo,hi} *)

(** A position of the matcher: how many characters were consumed, and
    the characters still ahead. *)
Definition cursor : Type := nat * string.

Definition newline : ascii := ascii_of_nat 10.

(** [\d] on code points below 256. *)
Definition is_digit (c : ascii) : bool :=
  (48 <=? nat_of_ascii c)%nat && (nat_of_ascii c <=? 57)%nat.

(** [$] without [re.MULTILINE]: the end of the string, or just before a
    newline that is the last character of the string. *)
Definition at_eol (rest : string) : bool :=
  match rest with
  | EmptyString => true
  | String c EmptyString => Ascii.eqb c newline
  | _ => false
  end.

(** Greedy bounded repetition: every way of applying [f] between [lo]
    and [hi] times, longest first. *)
Fixpoint iter_rep (f : cursor -> list cursor) (lo hi : nat) (k : cursor)
  : list cursor :=
  match hi with
  | O => match lo with O => [k] | S _ => [] end
  | S hi' =>
      flat_map (iter_rep f (pred lo) hi') (f k)
        ++ match lo with O => [k] | S _ => [] end
  end.

(** The backtracking search: all the cursors at which a match of [r]
    started at [k] can end, in the order the engine tries them. *)
Fixpoint backtrack (r : regex) (k : cursor) : list cursor :=
  match r with
  | Bol => match fst k with O => [k] | S _ => [] end
  | Eol => if at_eol (snd k) then [k] else []
  | Chr c =>
      match snd k with
      | String a rest => if Ascii.eqb a c then [(S (fst k), rest)] else []
      | EmptyString => []
      end
  | Digit =>
      match snd k with
      | String a rest => if is_digit a then [(S (fst k), rest)] else []
      | EmptyString => []
      end
  | Cat r1 r2 => flat_map (backtrack r2) (backtrack r1 k)
  | Alt r1 r2 => backtrack r1 k ++ backtrack r2 k
  | Opt r1 => backtrack r1 k ++ [k]
  | Rep lo hi r1 => iter_rep (backtrack r1) lo hi k
  end.

(** [re.match(pattern, s)] read as a truth value: a match anchored at
    the start of [s] exists. *)
Definition re_match (pattern : regex) (s : string) : bool :=
  nonempty (backtrack pattern (O, s)).

(** [\+?\d{10,15}] *)
Definition international : regex :=
  Cat (Opt (Chr "+")) (Rep 10 15 Digit).

(** [\d{3}-\d{3}-\d{4}] *)
Definition dashed : regex :=
  Cat (Rep 3 3 Digit)
    (Cat (Chr "-") (Cat (Rep 3 3 Digit) (Cat (Chr "-") (Rep 4 4 Digit)))).

(** The pattern of the source, [^(\+?\d{10,15}|\d{3}-\d{3}-\d{4})$]. *)
Definition phone_pattern : regex :=
  Cat Bol (Cat (Alt international dashed) Eol).

(** The two patterns the specification names,
    [^\+?\d{10,15}$] and [^\d{3}-\d{3}-\d{4}$]. *)
Definition international_pattern : regex := Cat Bol (Cat international Eol).
Definition dashed_pattern : regex := Cat Bol (Cat dashed Eol).

(** *** The language of a pattern, read off its syntax

    The declarative reading the matcher is checked against below: the
    words a pattern without anchors can consume. *)

Fixpoint power (L : string -> Prop) (k : nat) (w : string) : Prop :=
  match k with
  | O => w = EmptyString
  | S k' => exists w1 w2, w = (w1 ++ w2)%string /\ L w1 /\ power L k' w2
  end.

Fixpoint lang (r : regex) (w : string) : Prop :=
  match r with
  | Bol | Eol => w = EmptyString
  | Chr c => w = String c EmptyString
  | Digit => exists a, is_digit a = true /\ w = String a EmptyString
  | Cat r1 r2 =>
      exists w1 w2, w = (w1 ++ w2)%string /\ lang r1 w1 /\ lang r2 w2
  | Alt r1 r2 => lang r1 w \/ lang r2 w
  | Opt r1 => w = EmptyString \/ lang r1 w
  | Rep lo hi r1 => exists k, (lo <= k <= hi)%nat /\ power (lang r1) k w
  end.

Fixpoint anchor_free (r : regex) : bool :=
  match r with
  | Bol | Eol => false
  | Chr _ | Digit => true
  | Cat r1 r2 | Alt r1 r2 => anchor_free r1 && anchor_free r2
  | Opt r1 | Rep _ _ r1 => anchor_free r1
  end.

(** What it means for a step of the matcher to consume the words of a
    language [L]. *)
Definition consumes (f : cursor -> list cursor) (L : string -> Prop) : Prop :=
  forall n s c,
    In c (f (n, s))
    <-> exists w, L w /\ s = (w ++ snd c)%string
                  /\ fst c = (n + String.length w)%nat.

Fixpoint all_digits (w : string) : bool :=
  match w with
  | EmptyString => true
  | String a rest => is_digit a && all_digits rest
  end.

(** Between [lo] and [hi] characters, all of them digits. *)
Definition digits (lo hi : nat) (w : string) : Prop :=
  all_digits w = true /\ (lo <= String.length w <= hi)%nat.

(** Section 4.1 in words: an optional [+] and 10 to 15 digits, or
    [NNN-NNN-NNNN]. *)
Definition phone_body (b : string) : Prop :=
  (exists ds, digits 10 15 ds /\ (b = ds \/ b = String "+" ds))
  \/ (exists x y z,
        digits 3 3 x /\ digits 3 3 y /\ digits 4 4 z
        /\ b = (x ++ String "-" (y ++ String "-" z))%string).

End Re.

(* ------------------------------------------------------------------ *)
(** ** Numbers                                                          *)
(* ------------------------------------------------------------------ *)

(** What the resolvers ask of a price: the comparison [price <= 0] of
    [CreateProduct], and the [0] and [+] that Python's [sum] folds with
    in [CreateOrder].  The resolvers are written once for every carrier
    (binary floats as GraphQL delivers them, decimals as a store returns
    them); nothing is assumed about [+]. *)
Class Numeric (price : Type) : Type := {
  num_zero : price;
  num_add : price -> price -> price;
  num_le_zero : price -> bool
}.

(** Exact rational arithmetic, the carrier of the worked examples.  It
    agrees with Python's [Decimal] on sums of two-place decimals, and
    with binary floats where no rounding happens (as for 10.0 + 15.5). *)
#[export] Instance Numeric_Q : Numeric Q := {
  num_zero := 0%Q;
  num_add := Qplus;
  num_le_zero := fun q => Qle_bool q 0%Q
}.

(** Python's [float] (IEEE 754 binary64), the type of a GraphQL [Float]
    argument: [0 + x] and [x <= 0] with the integer [0] are the float
    operations against [0.0], and [nan <= 0] is false. *)
#[export] Instance Numeric_float : Numeric float := {
  num_zero := 0%float;
  num_add := PrimFloat.add;
  num_le_zero := fun x => PrimFloat.leb x 0%float
}.

(** Python's [sum(xs)]: [((0 + x1) + x2) + ...]. *)
Definition sum {price : Type} `{Numeric price} (xs : list price) : price :=
  fold_left num_add xs num_zero.

(* ------------------------------------------------------------------ *)
(** ** crm/models.py                                                    *)
(* ------------------------------------------------------------------ *)

(** Modelled from the spec: crm/models.py is not among the sources.  The
    three record types below carry the fields the resolvers read and
    write and that section 3 of the specification lists.  [pk] is [None]
    on an instance that was never saved. *)
Record Customer : Type := mkCustomer {
  customer_pk : option Z;
  customer_name : string;
  customer_email : string;
  customer_phone : string
}.

Record Product (price : Type) : Type := mkProduct {
  product_pk : option Z;
  product_name : string;
  product_price : price;
  product_stock : Z
}.
Arguments mkProduct {price}.
Arguments product_pk {price}.
Arguments product_name {price}.
Arguments product_price {price}.
Arguments product_stock {price}.

Record Order (price : Type) : Type := mkOrder {
  order_pk : option Z;
  order_customer : Customer;
  order_date : Z;
  order_total_amount : price
}.
Arguments mkOrder {price}.
Arguments order_pk {price}.
Arguments order_customer {price}.
Arguments order_date {price}.
Arguments order_total_amount {price}.

(** Modelled from the spec: the relational store behind the Django ORM.
    One table per model, rows in insertion order, keys handed out by a
    counter per table, and the through table of [Order.products] as
    pairs (order key, product key).  Following sections 3, 4.3 and 5 of
    the specification, the uniqueness of [Customer.email] rests on the
    resolvers' own check: the table accepts any row. *)
Record Store (price : Type) : Type := mkStore {
  customers : list Customer;
  products : list (Product price);
  orders : list (Order price);
  order_products : list (Z * Z);
  next_customer_pk : Z;
  next_product_pk : Z;
  next_order_pk : Z
}.
Arguments mkStore {price}.
Arguments customers {price}.
Arguments products {price}.
Arguments orders {price}.
Arguments order_products {price}.
Arguments next_customer_pk {price}.
Arguments next_product_pk {price}.
Arguments next_order_pk {price}.

Definition empty_store {price : Type} : Store price :=
  mkStore [] [] [] [] 1 1 1.

(* ------------------------------------------------------------------ *)
(** ** crm/schema.py: argument and result objects                       *)
(* ------------------------------------------------------------------ *)

(** [class CustomerInput(graphene.InputObjectType)] *)
Record CustomerInput : Type := mkCustomerInput {
  input_name : string;
  input_email : string;
  input_phone : option string
}.

(** The fields of [class CreateCustomer(graphene.Mutation)]. *)
Record CreateCustomerResult : Type := mkCreateCustomer {
  cc_customer : option Customer;
  cc_success : bool;
  cc_message : string
}.

(** The fields of [class BulkCreateCustomers(graphene.Mutation)]. *)
Record BulkCreateCustomersResult : Type := mkBulkCreateCustomers {
  created_customers : list Customer;
  errors : list string
}.

(** The fields of [class CreateProduct(graphene.Mutation)]. *)
Record CreateProductResult (price : Type) : Type := mkCreateProduct {
  cp_product : option (Product price);
  cp_success : bool;
  cp_message : string
}.
Arguments mkCreateProduct {price}.
Arguments cp_product {price}.
Arguments cp_success {price}.
Arguments cp_message {price}.

(** The fields of [class CreateOrder(graphene.Mutation)]. *)
Record CreateOrderResult (price : Type) : Type := mkCreateOrder {
  co_order : option (Order price);
  co_success : bool;
  co_message : string
}.
Arguments mkCreateOrder {price}.
Arguments co_order {price}.
Arguments co_success {price}.
Arguments co_message {price}.

(** Python's truth value of an optional string: [None] and the empty
    string are false. *)
Definition truthy (x : option string) : bool :=
  match x with
  | Some (String _ _) => true
  | _ => false
  end.

(** [x or ""] for an optional string. *)
Definition or_empty (x : option string) : string :=
  match x with
  | Some (String a rest) => String a rest
  | _ => EmptyString
  end.

(** [x or y] for an optional timestamp (a [datetime] is always true). *)
Definition or_else (x : option Z) (y : Z) : Z :=
  match x with
  | Some t => t
  | None => y
  end.

Definition same_pk (k : option Z) (i : Z) : bool :=
  match k with
  | Some j => Z.eqb j i
  | None => false
  end.

Definition pk_in (k : option Z) (ids : list Z) : bool :=
  existsb (same_pk k) ids.

Section Schema.

Context {price : Type} `{Numeric price}.

(** [django.core.validators.validate_email]: a library function of the
    framework, taken as a parameter.  [validate_email s = true] when the
    call returns, [false] when it raises [ValidationError]. *)
Variable validate_email : string -> bool.

(* ------------------------------------------------------------------ *)
(** *** The ORM calls of the resolvers                                  *)
(* ------------------------------------------------------------------ *)

(** [Customer.objects.filter(email=email).exists()] *)
Definition Customer_email_exists (s : Store price) (email : string) : bool :=
  existsb (fun c => String.eqb (customer_email c) email) (customers s).

(** [Customer.objects.get(pk=pk)]; [None] stands for [ObjectDoesNotExist]. *)
Definition Customer_get (s : Store price) (pk : Z) : option Customer :=
  find (fun c => same_pk (customer_pk c) pk) (customers s).

(** [customer.save()] on a new instance: the row is appended under the
    next key, and the instance carries that key from then on. *)
Definition Customer_save (s : Store price) (c : Customer)
  : Customer * Store price :=
  let saved :=
    mkCustomer (Some (next_customer_pk s))
      (customer_name c) (customer_email c) (customer_phone c) in
  (saved,
   mkStore (customers s ++ [saved]) (products s) (orders s) (order_products s)
     (next_customer_pk s + 1) (next_product_pk s) (next_order_pk s)).

(** The keys [bulk_create] sets on the instances it was given, in the
    order of the list. *)
Fixpoint assign_pks (next : Z) (objs : list Customer) : list Customer :=
  match objs with
  | [] => []
  | c :: rest =>
      mkCustomer (Some next)
        (customer_name c) (customer_email c) (customer_phone c)
        :: assign_pks (next + 1) rest
  end.

(** [with transaction.atomic(): Customer.objects.bulk_create(objs)]: all
    the rows are appended in one step.  The instances of [objs] are the
    ones the caller holds, so the caller sees the keys too. *)
Definition Customer_bulk_create (s : Store price) (objs : list Customer)
  : list Customer * Store price :=
  let saved := assign_pks (next_customer_pk s) objs in
  (saved,
   mkStore (customers s ++ saved) (products s) (orders s) (order_products s)
     (next_customer_pk s + Z.of_nat (List.length objs))
     (next_product_pk s) (next_order_pk s)).

(** [product.save()] on a new instance. *)
Definition Product_save (s : Store price) (p : Product price)
  : Product price * Store price :=
  let saved :=
    mkProduct (Some (next_product_pk s))
      (product_name p) (product_price p) (product_stock p) in
  (saved,
   mkStore (customers s) (products s ++ [saved]) (orders s) (order_products s)
     (next_customer_pk s) (next_product_pk s + 1) (next_order_pk s)).

(** [Product.objects.filter(id__in=ids)]: the rows whose key is one of
    [ids], each row once, in table order. *)
Definition Product_filter_id_in (s : Store price) (ids : list Z)
  : list (Product price) :=
  filter (fun p => pk_in (product_pk p) ids) (products s).

(** [Order.objects.create(customer=..., order_date=..., total_amount=...)] *)
Definition Order_create (s : Store price) (customer : Customer)
    (date : Z) (total : price) : Order price * Store price :=
  let saved := mkOrder (Some (next_order_pk s)) customer date total in
  (saved,
   mkStore (customers s) (products s) (orders s ++ [saved]) (order_products s)
     (next_customer_pk s) (next_product_pk s) (next_order_pk s + 1)).

Definition link_eqb (a b : Z * Z) : bool :=
  Z.eqb (fst a) (fst b) && Z.eqb (snd a) (snd b).

(** [order.products.set(objs)]: the links of the order to products that
    are not in [objs] are removed, and a link is added for each product
    of [objs] that has none yet.  An order without a key has no related
    manager; the resolver only calls this on a created order. *)
Definition Order_products_set (s : Store price) (order : Order price)
    (objs : list (Product price)) : Store price :=
  match order_pk order with
  | None => s
  | Some o =>
      let kept :=
        filter
          (fun l =>
             negb (Z.eqb (fst l) o)
             || existsb (fun p => same_pk (product_pk p) (snd l)) objs)
          (order_products s) in
      let added :=
        flat_map (fun p =>
            match product_pk p with
            | Some i =>
                if existsb (link_eqb (o, i)) (order_products s) then []
                else [(o, i)]
            | None => []
            end) objs in
      mkStore (customers s) (products s) (orders s) (kept ++ added)
        (next_customer_pk s) (next_product_pk s) (next_order_pk s)
  end.

(** [order.products.all()]: the products linked to the order. *)
Definition Order_products (s : Store price) (order : Order price)
  : list (Product price) :=
  match order_pk order with
  | None => []
  | Some o =>
      filter (fun p =>
          match product_pk p with
          | Some i => existsb (link_eqb (o, i)) (order_products s)
          | None => false
          end) (products s)
  end.

(* ------------------------------------------------------------------ *)
(** *** [CreateCustomer.mutate]                                         *)
(* ------------------------------------------------------------------ *)

(** The phone test is [if phone: if not re.match(..., phone)]; when
    [phone] is true, [or_empty phone] is the string [phone] itself. *)
Definition CreateCustomer_mutate (s : Store price)
    (name email : string) (phone : option string)
  : CreateCustomerResult * Store price :=
  if validate_email email then
    if Customer_email_exists s email then
      (mkCreateCustomer None false "Email already exists", s)
    else if truthy phone
              && negb (Re.re_match Re.phone_pattern (or_empty phone)) then
      (mkCreateCustomer None false "Invalid phone format", s)
    else
      let customer := mkCustomer None name email (or_empty phone) in
      let '(customer, s') := Customer_save s customer in
      (mkCreateCustomer (Some customer) true "Customer created successfully",
       s')
  else
    (mkCreateCustomer None false "Invalid email format", s).

(* ------------------------------------------------------------------ *)
(** *** [BulkCreateCustomers.mutate]                                    *)
(* ------------------------------------------------------------------ *)

(** One turn of the [for] loop, on the two lists it appends to ([idx] of
    [enumerate] is not used).  The store is not written inside the loop. *)
Definition bulk_step (s : Store price)
    (acc : list Customer * list string) (c : CustomerInput)
  : list Customer * list string :=
  let '(created, errors) := acc in
  if validate_email (input_email c) then
    if Customer_email_exists s (input_email c) then
      (created, errors ++ [(input_email c ++ ": Email already exists")%string])
    else if truthy (input_phone c)
              && negb (Re.re_match Re.phone_pattern
                         (or_empty (input_phone c))) then
      (created, errors ++ [(input_email c ++ ": Invalid phone format")%string])
    else
      (created
         ++ [mkCustomer None (input_name c) (input_email c)
               (or_empty (input_phone c))],
       errors)
  else
    (created, errors ++ [(input_email c ++ ": Invalid email format")%string]).

(** The loop over [customers], from the two empty lists. *)
Definition bulk_loop (s : Store price) (customers : list CustomerInput)
  : list Customer * list string :=
  fold_left (bulk_step s) customers ([], []).

Definition BulkCreateCustomers_mutate (s : Store price)
    (customers : list CustomerInput)
  : BulkCreateCustomersResult * Store price :=
  let '(created, errors) := bulk_loop s customers in
  let '(created, s') := Customer_bulk_create s created in
  (mkBulkCreateCustomers created errors, s').

(* ------------------------------------------------------------------ *)
(** *** [CreateProduct.mutate]                                          *)
(* ------------------------------------------------------------------ *)

(** The resolver on a [stock] that is an integer: [stock] is the
    argument after the default of the signature ([stock=0]).  The call
    with every [stock] graphene can pass is [CreateProduct_call] below. *)
Definition CreateProduct_mutate (s : Store price)
    (name : string) (p : price) (stock : Z)
  : CreateProductResult price * Store price :=
  if num_le_zero p then
    (mkCreateProduct None false "Price must be positive", s)
  else if (stock <? 0)%Z then
    (mkCreateProduct None false "Stock cannot be negative", s)
  else
    let product := mkProduct None name p stock in
    let '(product, s') := Product_save s product in
    (mkCreateProduct (Some product) true "Product created successfully", s').

(* ------------------------------------------------------------------ *)
(** *** [CreateOrder.mutate]                                            *)
(* ------------------------------------------------------------------ *)

(** The resolver on ids that the ORM has turned into keys.  [now] is
    what [datetime.now()] returns if the resolver asks.  The call with
    the ids as graphene passes them is [CreateOrder_call] below. *)
Definition CreateOrder_mutate (s : Store price)
    (customer_id : Z) (product_ids : list Z) (order_date : option Z)
    (now : Z)
  : CreateOrderResult price * Store price :=
  match Customer_get s customer_id with
  | None => (mkCreateOrder None false "Customer not found", s)
  | Some customer =>
      match product_ids with
      | [] => (mkCreateOrder None false "No products selected", s)
      | _ :: _ =>
          let products := Product_filter_id_in s product_ids in
          if negb (List.length products =? List.length product_ids)%nat then
            (mkCreateOrder None false "Invalid product ID(s)", s)
          else
            let total := sum (map product_price products) in
            let '(order, s1) :=
              Order_create s customer (or_else order_date now) total in
            let s2 := Order_products_set s1 order products in
            (mkCreateOrder (Some order) true "Order created successfully", s2)
      end
  end.

End Schema.

(* ------------------------------------------------------------------ *)
(** ** The resolvers as graphene calls them                             *)
(* ------------------------------------------------------------------ *)

(** The exceptions that [CreateProduct.mutate] and [CreateOrder.mutate]
    can let through. *)
Inductive exn : Type :=
| ValueError
| TypeError.

(** A call returns a value, or an exception that the resolver does not
    catch ends it. *)
Inductive outcome (A : Type) : Type :=
| Returned (a : A)
| Raised (e : exn).
Arguments Returned {A}.
Arguments Raised {A}.

(** A nullable argument with a default in the signature of [mutate]: left
    out of the query, given as [null], or given a value. *)
Inductive argument (A : Type) : Type :=
| Omitted
| Null
| Given (a : A).
Arguments Omitted {A}.
Arguments Null {A}.
Arguments Given {A}.

(** What Python binds to a parameter with a default: the default when
    the argument is left out, [None] when it is [null]. *)
Definition bound_value {A : Type} (default : A) (a : argument A) : option A :=
  match a with
  | Omitted => Some default
  | Null => None
  | Given v => Some v
  end.

Section Calls.

Context {price : Type} `{Numeric price}.

(** The key the ORM makes of a [graphene.ID] when it prepares a lookup on
    an integer primary key ([int(value)] in the field's [get_prep_value]):
    a library function, taken as a parameter.  [to_pk id = None] when the
    conversion raises [ValueError]. *)
Variable to_pk : string -> option Z.

(** The keys of [filter(id__in=product_ids)]: every id is converted when
    the lookup is built, a [null] item is no key and is dropped from the
    lookup, and an id that does not convert raises ([None]). *)
Fixpoint prep_ids (product_ids : list (option string)) : option (list Z) :=
  match product_ids with
  | [] => Some []
  | None :: rest => prep_ids rest
  | Some id :: rest =>
      match to_pk id, prep_ids rest with
      | Some i, Some ids => Some (i :: ids)
      | _, _ => None
      end
  end.

(** [CreateProduct.mutate(self, info, name, price, stock=0)] with the
    [stock] of the query.  The parameter is bound first; [stock < 0] on
    [None] raises [TypeError], and is only reached after the price test. *)
Definition CreateProduct_call (s : Store price)
    (name : string) (p : price) (stock : argument Z)
  : outcome (CreateProductResult price * Store price) :=
  let stock := bound_value 0%Z stock in
  if num_le_zero p then
    Returned (mkCreateProduct None false "Price must be positive", s)
  else
    match stock with
    | None => Raised TypeError
    | Some stock =>
        if (stock <? 0)%Z then
          Returned (mkCreateProduct None false "Stock cannot be negative", s)
        else
          let product := mkProduct None name p stock in
          let '(product, s') := Product_save s product in
          Returned
            (mkCreateProduct (Some product) true
               "Product created successfully", s')
    end.

(** [CreateOrder.mutate(self, info, customer_id, product_ids,
    order_date=None)] with the ids of the query.  [get(pk=customer_id)]
    is inside [try ... except ObjectDoesNotExist] only, and
    [filter(id__in=product_ids)] is inside no [try]: an id that does not
    convert raises [ValueError] out of the resolver.  [len(product_ids)]
    counts every item, [null] items included. *)
Definition CreateOrder_call (s : Store price)
    (customer_id : string) (product_ids : list (option string))
    (order_date : option Z) (now : Z)
  : outcome (CreateOrderResult price * Store price) :=
  match to_pk customer_id with
  | None => Raised ValueError
  | Some pk =>
      match Customer_get s pk with
      | None => Returned (mkCreateOrder None false "Customer not found", s)
      | Some customer =>
          match product_ids with
          | [] =>
              Returned (mkCreateOrder None false "No products selected", s)
          | _ :: _ =>
              match prep_ids product_ids with
              | None => Raised ValueError
              | Some ids =>
                  let products := Product_filter_id_in s ids in
                  if negb (List.length products
                           =? List.length product_ids)%nat then
                    Returned
                      (mkCreateOrder None false "Invalid product ID(s)", s)
                  else
                    let total := sum (map product_price products) in
                    let '(order, s1) :=
                      Order_create s customer (or_else order_date now)
                        total in
                    let s2 := Order_products_set s1 order products in
                    Returned
                      (mkCreateOrder (Some order) true
                         "Order created successfully", s2)
              end
          end
      end
  end.

End Calls.

(* ------------------------------------------------------------------ *)
(** ** The vocabulary of the statements                                 *)
(* ------------------------------------------------------------------ *)

Section Specification.

Context {price : Type}.
Variable validate_email : string -> bool.

(** [validate_phone] of section 4.1: an absent or empty phone is valid;
    any other phone must match one of the two patterns. *)
Definition validate_phone (phone : option string) : bool :=
  match phone with
  | None => true
  | Some EmptyString => true
  | Some p =>
      Re.re_match Re.international_pattern p
      || Re.re_match Re.dashed_pattern p
  end.

(** The three per-record checks of sections 4.2 and 4.3: email format,
    email uniqueness against the persisted customers, phone format. *)
Definition record_passes (s : Store price) (c : CustomerInput) : bool :=
  validate_email (input_email c)
  && negb (existsb (fun k => String.eqb (customer_email k) (input_email c))
             (customers s))
  && validate_phone (input_phone c).

Definition record_fails (s : Store price) (c : CustomerInput) : bool :=
  negb (record_passes s c).

(** What one record adds to the two lists of the loop. *)
Definition bulk_one (s : Store price) (c : CustomerInput)
  : list Customer * list string :=
  bulk_step validate_email s ([], []) c.

(** The candidate built from an accepted record. *)
Definition candidate (c : CustomerInput) : Customer :=
  mkCustomer None (input_name c) (input_email c) (or_empty (input_phone c)).

(** [e] starts with [p] (Python's [e.startswith(p)]). *)
Fixpoint starts_with (p e : string) : bool :=
  match p, e with
  | EmptyString, _ => true
  | String a p', String b e' => Ascii.eqb a b && starts_with p' e'
  | String _ _, EmptyString => false
  end.

(** The three stored fields of a customer, without its key. *)
Definition customer_fields (c : Customer) : string * string * string :=
  (customer_name c, customer_email c, customer_phone c).

End Specification.

(* ------------------------------------------------------------------ *)
(** ** Well-formed stores                                               *)
(* ------------------------------------------------------------------ *)

Definition pk_eqb (a b : option Z) : bool :=
  match a, b with
  | Some i, Some j => Z.eqb i j
  | None, None => true
  | _, _ => false
  end.

Definition pk_below (next : Z) (k : option Z) : bool :=
  match k with
  | Some i => (i <? next)%Z
  | None => false
  end.

Fixpoint distinct_pks (ks : list (option Z)) : bool :=
  match ks with
  | [] => true
  | k :: rest => negb (existsb (pk_eqb k) rest) && distinct_pks rest
  end.

(** A table as a relational store keeps it: every row has a key, the
    keys are pairwise distinct and below the table's counter. *)
Definition table_ok (next : Z) (ks : list (option Z)) : bool :=
  forallb (pk_below next) ks && distinct_pks ks.

(** A row keyed in the range [lo <= key < hi]. *)
Definition keyed_in (lo hi : Z) (k : option Z) : Prop :=
  exists i, k = Some i /\ (lo <= i < hi)%Z.

Definition store_wf {price : Type} (s : Store price) : Prop :=
  table_ok (next_customer_pk s) (map customer_pk (customers s)) = true
  /\ table_ok (next_product_pk s) (map product_pk (products s)) = true
  /\ table_ok (next_order_pk s) (map order_pk (orders s)) = true.

(* ------------------------------------------------------------------ *)
(** ** Data of the worked examples                                      *)
(* ------------------------------------------------------------------ *)

(** A stand-in for the framework's validator in the worked examples: it
    accepts the strings that hold an [@].  Every theorem below is stated
    for an arbitrary validator. *)
Fixpoint sample_validate_email (s : string) : bool :=
  match s with
  | EmptyString => false
  | String c rest => Ascii.eqb c "@" || sample_validate_email rest
  end.

(** A stand-in for the ORM's conversion of an id in the worked
    examples: it reads the non-empty strings of decimal digits.  Every
    theorem below is stated for an arbitrary conversion. *)
Fixpoint digits_value (acc : Z) (s : string) : option Z :=
  match s with
  | EmptyString => Some acc
  | String c rest =>
      if Re.is_digit c then
        digits_value (10 * acc + Z.of_nat (nat_of_ascii c - 48)) rest
      else None
  end.

Definition sample_to_pk (s : string) : option Z :=
  match s with
  | EmptyString => None
  | String _ _ => digits_value 0 s
  end.

(** The store after [CreateCustomer("Alice", "alice@example.com")] and
    [CreateProduct] of P1 (price 10.00) and P2 (price 15.50) on the empty
    store. *)
Definition alice : Customer :=
  mkCustomer (Some 1%Z) "Alice" "alice@example.com" EmptyString.
Definition P1 : Product Q := mkProduct (Some 1%Z) "P1" 10.00%Q 0%Z.
Definition P2 : Product Q := mkProduct (Some 2%Z) "P2" 15.50%Q 0%Z.

Definition shop : Store Q :=
  mkStore [alice] [P1; P2] [] [] 2 3 1.

Definition bob_input : CustomerInput :=
  mkCustomerInput "Bob" "bob@example.com" (Some "123-456-7890").
Definition carol_input : CustomerInput :=
  mkCustomerInput "Carol" "carol@example.com" None.
Definition bad_email_input : CustomerInput :=
  mkCustomerInput "Dan" "dan.example.com" None.
Definition taken_email_input : CustomerInput :=
  mkCustomerInput "Alice II" "alice@example.com" (Some "12345").
Definition bad_phone_input : CustomerInput :=
  mkCustomerInput "Erin" "erin@example.com" (Some "12345").
Definition nameless_input : CustomerInput :=
  mkCustomerInput EmptyString "nobody@example.com" None.

(** The same store with prices as floats. *)
Definition shop_float : Store float :=
  mkStore [alice]
    [mkProduct (Some 1%Z) "P1" 10.00%float 0%Z;
     mkProduct (Some 2%Z) "P2" 15.50%float 0%Z]
    [] [] 2 3 1.

Definition six_records : list CustomerInput :=
  [bob_input; bad_email_input; taken_email_input; carol_input;
   bad_phone_input; nameless_input].

(* ------------------------------------------------------------------ *)
(** ** Invariants of the stored data                                    *)
(* ------------------------------------------------------------------ *)

(** No two stored customers share an email. *)
Definition emails_unique {price : Type} (s : Store price) : Prop :=
  NoDup (map customer_email (customers s)).

(** [s'] is [s] with rows appended: no stored customer, product or order
    is removed or changed, and no counter goes back. *)
Definition extends {price : Type} (s s' : Store price) : Prop :=
  (exists l, customers s' = customers s ++ l)
  /\ (exists l, products s' = products s ++ l)
  /\ (exists l, orders s' = orders s ++ l)
  /\ (next_customer_pk s <= next_customer_pk s')%Z
  /\ (next_product_pk s <= next_product_pk s')%Z
  /\ (next_order_pk s <= next_order_pk s')%Z.

Section Invariants.

Context {price : Type} `{Numeric price}.
Variable validate_email : string -> bool.

(** A stored customer as the resolvers let it in: an email the validator
    accepts, and a phone that is empty or matches the phone pattern. *)
Definition customer_valid (c : Customer) : bool :=
  validate_email (customer_email c)
  && (match customer_phone c with
      | EmptyString => true
      | String _ _ => Re.re_match Re.phone_pattern (customer_phone c)
      end).

(** A stored product as [CreateProduct] lets it in: not [price <= 0],
    and not [stock < 0]. *)
Definition product_valid (p : Product price) : bool :=
  negb (num_le_zero (product_price p)) && (0 <=? product_stock p)%Z.

Definition store_valid (s : Store price) : Prop :=
  forallb customer_valid (customers s) = true
  /\ forallb product_valid (products s) = true.

(** A link of the through table points at keys that were handed out. *)
Definition link_ok (s : Store price) (l : Z * Z) : bool :=
  (fst l <? next_order_pk s)%Z && (snd l <? next_product_pk s)%Z.

(** The total of a stored order is the sum of the prices of the products
    linked to it. *)
Definition order_total_ok (s : Store price) (o : Order price) : Prop :=
  order_total_amount o = sum (map product_price (Order_products s o)).

(** Well-formed tables, links to existing keys only, and every order
    with the total of its products. *)
Definition store_consistent (s : Store price) : Prop :=
  store_wf s
  /\ forallb (link_ok s) (order_products s) = true
  /\ Forall (order_total_ok s) (orders s).

(** [CreateCustomer] on one record of a batch. *)
Definition CreateCustomer_record (s : Store price) (c : CustomerInput)
  : CreateCustomerResult * Store price :=
  CreateCustomer_mutate validate_email s
    (input_name c) (input_email c) (input_phone c).

(** One [CreateCustomer] call per record, in input order, each on the
    store the call before it left. *)
Definition create_each (s : Store price) (records : list CustomerInput)
  : Store price :=
  fold_left (fun st c => snd (CreateCustomer_record st c)) records s.

End Invariants.

(** The sample store after an order of Alice over P1 and P2. *)
Definition shop_with_order : Store Q :=
  snd (CreateOrder_mutate shop 1 [1; 2]%Z None 0).

Definition alice_order : Order Q :=
  mkOrder (Some 1%Z) alice 0 (sum (map product_price [P1; P2])).

(* ================================================================== *)
(** * Properties                                                        *)
(* ================================================================== *)

(** ** The phone pattern *)

Module ReFacts.
Import Re.

Lemma nonempty_app {A : Type} (l1 l2 : list A) :
  nonempty (l1 ++ l2) = nonempty l1 || nonempty l2.
Proof. destruct l1; reflexivity. Qed.

Lemma re_match_nonempty r s : re_match r s = nonempty (backtrack r (O, s)).
Proof. reflexivity. Qed.

(** The source writes one anchored alternation where the specification
    names two anchored patterns: the two readings agree on every string. *)
Lemma anchored_alternation r1 r2 s :
  re_match (Cat Bol (Cat (Alt r1 r2) Eol)) s
  = re_match (Cat Bol (Cat r1 Eol)) s || re_match (Cat Bol (Cat r2 Eol)) s.
Proof.
  rewrite !re_match_nonempty. simpl.
  rewrite !app_nil_r, flat_map_app. apply nonempty_app.
Qed.

Lemma phone_pattern_split s :
  re_match phone_pattern s
  = re_match international_pattern s || re_match dashed_pattern s.
Proof. apply anchored_alternation. Qed.

(** *** The matcher against the language of the pattern *)

Lemma append_nil_r (w : string) : (w ++ EmptyString)%string = w.
Proof. induction w as [|a w IH]; simpl; [reflexivity | now rewrite IH]. Qed.

Lemma append_assoc (u v w : string) :
  ((u ++ v) ++ w)%string = (u ++ (v ++ w))%string.
Proof. induction u as [|a u IH]; simpl; [reflexivity | now rewrite IH]. Qed.

Lemma length_append (u v : string) :
  String.length (u ++ v) = (String.length u + String.length v)%nat.
Proof. induction u as [|a u IH]; simpl; [reflexivity | now rewrite IH]. Qed.

Lemma nonempty_In {A : Type} (l : list A) :
  nonempty l = true <-> exists x, In x l.
Proof.
  destruct l as [|x l]; simpl.
  - split; [discriminate | intros [x []]].
  - split; [intros _; exists x; now left | reflexivity].
Qed.

Lemma iter_rep_consumes f L :
  consumes f L ->
  forall hi lo,
    consumes (iter_rep f lo hi)
      (fun w => exists k, (lo <= k <= hi)%nat /\ power L k w).
Proof.
  intros Hf. induction hi as [|hi IH]; intros lo n s c.
  - destruct lo as [|lo]; simpl.
    + split.
      * intros [<-|[]]. exists EmptyString. simpl.
        split; [exists O; split; [lia|reflexivity] | split; [reflexivity|lia]].
      * intros [w [[k [Hk Hw]] [Hs Hn]]]. left.
        assert (k = O) by lia. subst k. simpl in Hw. subst w.
        simpl in Hs, Hn. destruct c as [n' t]. simpl in *. subst.
        f_equal. lia.
    + split; [intros [] | intros [w [[k [Hk _]] _]]; lia].
  - cbn [iter_rep]. rewrite in_app_iff, in_flat_map. split.
    + intros [[[n1 s1] [H1 Hc]]|H0].
      * apply Hf in H1. destruct H1 as [w1 [Hw1 [Hs1 Hn1]]].
        apply IH in Hc. destruct Hc as [w2 [[k [Hk Hw2]] [Hs2 Hn2]]].
        simpl in Hs1, Hn1. exists (w1 ++ w2)%string. split; [|split].
        -- exists (S k). split; [lia|]. simpl. now exists w1, w2.
        -- now rewrite append_assoc, <- Hs2.
        -- rewrite length_append. lia.
      * destruct lo as [|lo]; [|now destruct H0].
        destruct H0 as [<-|[]]. exists EmptyString. simpl.
        split; [exists O; split; [lia|reflexivity] | split; [reflexivity|lia]].
    + intros [w [[k [Hk Hw]] [Hs Hn]]]. destruct k as [|k].
      * right. simpl in Hw. subst w. assert (lo = O) by lia. subst lo.
        left. destruct c as [n' t]. simpl in *. subst. f_equal. lia.
      * left. simpl in Hw. destruct Hw as [w1 [w2 [-> [Hw1 Hw2]]]].
        rewrite append_assoc in Hs. rewrite length_append in Hn.
        exists ((n + String.length w1)%nat, (w2 ++ snd c)%string). split.
        -- apply Hf. exists w1. simpl. auto.
        -- apply IH. exists w2. simpl.
           split; [exists k; split; [lia|exact Hw2] | split; [reflexivity|lia]].
Qed.

(** The matcher and the language agree: from [(n, s)] the search ends
    exactly at the cursors [(n + |w|, t)] with [s = w ++ t] and [w] in
    the language of the pattern. *)
Theorem backtrack_consumes_lang r :
  anchor_free r = true -> consumes (backtrack r) (lang r).
Proof.
  induction r as [| |c0| |r1 IH1 r2 IH2|r1 IH1 r2 IH2|r1 IH1|lo hi r1 IH1];
    simpl; intros Hfree; try discriminate.
  - intros n s c. simpl. destruct s as [|a rest].
    + split; [intros [] | intros [w [-> [E _]]]; discriminate E].
    + destruct (Ascii.eqb_spec a c0) as [->|Hne]; simpl.
      * split.
        -- intros [<-|[]]. exists (String c0 EmptyString). simpl.
           split; [reflexivity | split; [reflexivity | lia]].
        -- intros [w [-> [E Hn]]]. left. destruct c as [n' t].
           simpl in *. inversion E; subst. f_equal. lia.
      * split; [intros [] | intros [w [-> [E _]]]].
        simpl in E. inversion E. congruence.
  - intros n s c. simpl. destruct s as [|a rest].
    + split; [intros [] | intros [w [[a [_ ->]] [E _]]]; discriminate E].
    + destruct (is_digit a) eqn:Ha; simpl.
      * split.
        -- intros [<-|[]]. exists (String a EmptyString). simpl.
           split; [now exists a | split; [reflexivity | lia]].
        -- intros [w [[b [_ ->]] [E Hn]]]. left. destruct c as [n' t].
           simpl in *. inversion E; subst. f_equal. lia.
      * split; [intros [] | intros [w [[b [Hb ->]] [E _]]]].
        simpl in E. inversion E. congruence.
  - apply andb_true_iff in Hfree. destruct Hfree as [F1 F2].
    intros n s c. rewrite in_flat_map. split.
    + intros [[n1 s1] [H1 H2]].
      apply (IH1 F1) in H1. destruct H1 as [w1 [Hw1 [Hs1 Hn1]]].
      apply (IH2 F2) in H2. destruct H2 as [w2 [Hw2 [Hs2 Hn2]]].
      simpl in Hs1, Hn1. exists (w1 ++ w2)%string. split; [|split].
      * now exists w1, w2.
      * now rewrite append_assoc, <- Hs2.
      * rewrite length_append. lia.
    + intros [w [[w1 [w2 [-> [Hw1 Hw2]]]] [Hs Hn]]].
      rewrite append_assoc in Hs. rewrite length_append in Hn.
      exists ((n + String.length w1)%nat, (w2 ++ snd c)%string). split.
      * apply (IH1 F1). exists w1. simpl. auto.
      * apply (IH2 F2). exists w2. simpl.
        split; [exact Hw2 | split; [reflexivity | lia]].
  - apply andb_true_iff in Hfree. destruct Hfree as [F1 F2].
    intros n s c. rewrite in_app_iff, (IH1 F1 n s c), (IH2 F2 n s c).
    split.
    + intros [[w [Hw H']]|[w [Hw H']]]; exists w; split; auto.
    + intros [w [[Hw|Hw] H']]; [left|right]; exists w; split; auto.
  - intros n s c. rewrite in_app_iff, (IH1 Hfree n s c). split.
    + intros [[w [Hw H']]|[<-|[]]].
      * exists w. split; auto.
      * exists EmptyString. simpl. split; [now left | split; [reflexivity|lia]].
    + intros [w [[->|Hw] [Hs Hn]]].
      * right. left. destruct c as [n' t]. simpl in *. subst. f_equal. lia.
      * left. exists w. auto.
  - apply iter_rep_consumes. now apply IH1.
Qed.

(** [re.match] with a pattern [^r$]: the string is a word of [r], with
    or without one newline after it. *)
Theorem re_match_anchored r s :
  anchor_free r = true ->
  re_match (Cat Bol (Cat r Eol)) s = true
  <-> exists w, lang r w
                /\ (s = w \/ s = (w ++ String newline EmptyString)%string).
Proof.
  intros Hfree. unfold re_match. rewrite nonempty_In. simpl.
  rewrite app_nil_r. split.
  - intros [c Hc]. apply in_flat_map in Hc. destruct Hc as [[n1 s1] [H1 H2]].
    apply (backtrack_consumes_lang r Hfree) in H1.
    destruct H1 as [w [Hw [Hs _]]]. exists w. split; [exact Hw|].
    simpl in Hs, H2. unfold at_eol in H2.
    destruct s1 as [|a [|b s1]]; simpl in H2.
    + left. now rewrite append_nil_r in Hs.
    + destruct (Ascii.eqb_spec a newline) as [->|]; [|now destruct H2].
      now right.
    + now destruct H2.
  - intros [w [Hw [->| ->]]].
    + exists (String.length w, EmptyString). apply in_flat_map.
      exists (String.length w, EmptyString). split; [|now left].
      apply (backtrack_consumes_lang r Hfree). exists w. simpl.
      now rewrite append_nil_r.
    + exists (String.length w, String newline EmptyString). apply in_flat_map.
      exists (String.length w, String newline EmptyString). split.
      * apply (backtrack_consumes_lang r Hfree). exists w. simpl. auto.
      * simpl. now left.
Qed.

Lemma power_digits k w :
  power (lang Digit) k w <-> all_digits w = true /\ String.length w = k.
Proof.
  revert w. induction k as [|k IH]; intros w; simpl.
  - split; [intros ->; now split | intros [_ Hl]].
    now destruct w.
  - split.
    + intros [w1 [w2 [-> [[a [Ha ->]] Hw2]]]]. apply IH in Hw2.
      destruct Hw2 as [Hd Hl]. simpl. rewrite Ha, Hd, Hl. now split.
    + intros [Hd Hl]. destruct w as [|a w]; [discriminate Hl|].
      simpl in Hd, Hl. apply andb_true_iff in Hd. destruct Hd as [Ha Hd].
      exists (String a EmptyString), w. split; [reflexivity|].
      split; [now exists a|]. apply IH. split; [exact Hd | lia].
Qed.

Lemma lang_digits lo hi w : lang (Rep lo hi Digit) w <-> digits lo hi w.
Proof.
  unfold digits. simpl. split.
  - intros [k [Hk Hw]]. apply power_digits in Hw. destruct Hw as [Hd Hl].
    split; [exact Hd | lia].
  - intros [Hd Hl]. exists (String.length w). split; [lia|].
    now apply power_digits.
Qed.

Lemma lang_international w :
  lang international w
  <-> exists ds, digits 10 15 ds /\ (w = ds \/ w = String "+" ds).
Proof.
  unfold international. cbn [lang]. split.
  - intros [w1 [w2 [-> [H1 H2]]]]. exists w2.
    split; [now apply lang_digits|].
    destruct H1 as [->| ->]; [now left | now right].
  - intros [ds [Hd [->| ->]]].
    + exists EmptyString, ds. split; [reflexivity|].
      split; [now left | now apply lang_digits].
    + exists (String "+" EmptyString), ds. split; [reflexivity|].
      split; [now right | now apply lang_digits].
Qed.

Lemma lang_dashed w :
  lang dashed w
  <-> exists x y z,
        digits 3 3 x /\ digits 3 3 y /\ digits 4 4 z
        /\ w = (x ++ String "-" (y ++ String "-" z))%string.
Proof.
  unfold dashed. cbn [lang]. split.
  - intros (x & r1 & -> & Hx & m1 & r2 & -> & -> & y & r3 & -> & Hy
             & m2 & z & -> & -> & Hz).
    exists x, y, z.
    split; [now apply lang_digits|]. split; [now apply lang_digits|].
    split; [now apply lang_digits | reflexivity].
  - intros [x [y [z [Hx [Hy [Hz ->]]]]]].
    exists x, (String "-" (y ++ String "-" z))%string.
    split; [reflexivity|]. split; [now apply lang_digits|].
    exists (String "-" EmptyString), (y ++ String "-" z)%string.
    split; [reflexivity|]. split; [reflexivity|].
    exists y, (String "-" z). split; [reflexivity|].
    split; [now apply lang_digits|].
    exists (String "-" EmptyString), z. split; [reflexivity|].
    split; [reflexivity | now apply lang_digits].
Qed.

(** The phone pattern of the source accepts exactly the phone bodies of
    section 4.1, each with or without one final newline. *)
Theorem phone_pattern_spec s :
  re_match phone_pattern s = true
  <-> exists b, phone_body b
                /\ (s = b \/ s = (b ++ String newline EmptyString)%string).
Proof.
  unfold phone_pattern. rewrite re_match_anchored by reflexivity.
  unfold phone_body. cbn [lang].
  split; intros [b [Hb Hs]]; exists b; (split; [|exact Hs]).
  - destruct Hb as [Hb|Hb]; [left; now apply lang_international
                            | right; now apply lang_dashed].
  - destruct Hb as [Hb|Hb]; [left; now apply lang_international
                            | right; now apply lang_dashed].
Qed.

End ReFacts.

Section Properties.

Context {price : Type} `{Numeric price}.
Variable validate_email : string -> bool.
Variable to_pk : string -> option Z.

(** ** [CreateCustomer] *)

(** The phone test of the resolvers is the negation of [validate_phone]. *)
Lemma phone_test_spec (phone : option string) :
  truthy phone && negb (Re.re_match Re.phone_pattern (or_empty phone))
  = negb (validate_phone phone).
Proof.
  destruct phone as [[|a rest]|]; try reflexivity.
  simpl. now rewrite ReFacts.phone_pattern_split.
Qed.

(** [validate_phone] in the words of section 4.1. *)
Lemma validate_phone_spec (p : string) :
  validate_phone (Some p) = true
  <-> p = EmptyString
      \/ exists b, Re.phone_body b
                   /\ (p = b
                       \/ p = (b ++ String Re.newline EmptyString)%string).
Proof.
  destruct p as [|a rest].
  - split; [now left | reflexivity].
  - cbn [validate_phone].
    rewrite <- ReFacts.phone_pattern_split, ReFacts.phone_pattern_spec.
    split; [now right | intros [E|Hb]; [discriminate E | exact Hb]].
Qed.

Lemma validate_phone_matching (p : string) :
  Re.re_match Re.international_pattern p = true
  \/ Re.re_match Re.dashed_pattern p = true ->
  validate_phone (Some p) = true /\ or_empty (Some p) = p.
Proof.
  destruct p as [|a rest].
  - intros [E|E]; discriminate E.
  - intros [E|E]; simpl; rewrite E; auto using orb_true_r.
Qed.

Lemma Customer_email_exists_spec (s : Store price) (email : string) :
  Customer_email_exists s email = true
  <-> exists c, In c (customers s) /\ customer_email c = email.
Proof.
  unfold Customer_email_exists. rewrite existsb_exists.
  split; intros [c [Hin E]]; exists c; split; auto.
  - now apply String.eqb_eq.
  - now apply String.eqb_eq.
Qed.

Lemma fresh_email_not_found (s : Store price) (email : string) :
  (forall c, In c (customers s) -> customer_email c <> email) ->
  Customer_email_exists s email = false.
Proof.
  intros Hfresh. destruct (Customer_email_exists s email) eqn:E; [|reflexivity].
  apply Customer_email_exists_spec in E. destruct E as [c [Hin Hc]].
  now destruct (Hfresh c Hin).
Qed.

(** The three outcomes of [CreateCustomer] once the email is valid and
    fresh, by [validate_phone]. *)
Lemma CreateCustomer_fresh (s : Store price) (name email : string)
    (phone : option string) :
  validate_email email = true ->
  Customer_email_exists s email = false ->
  CreateCustomer_mutate validate_email s name email phone
  = if validate_phone phone then
      let customer :=
        mkCustomer (Some (next_customer_pk s)) name email (or_empty phone) in
      (mkCreateCustomer (Some customer) true "Customer created successfully",
       snd (Customer_save s (mkCustomer None name email (or_empty phone))))
    else (mkCreateCustomer None false "Invalid phone format", s).
Proof.
  intros Hv Hf. unfold CreateCustomer_mutate.
  rewrite Hv, Hf, phone_test_spec.
  destruct (validate_phone phone); reflexivity.
Qed.

(** C4: a valid email that already belongs to a stored customer is
    refused with "Email already exists", whatever the name and the phone
    are (the phone is not looked at). *)
Theorem CreateCustomer_email_taken (s : Store price) (name email : string)
    (phone : option string) :
  validate_email email = true ->
  (exists c, In c (customers s) /\ customer_email c = email) ->
  CreateCustomer_mutate validate_email s name email phone
  = (mkCreateCustomer None false "Email already exists", s).
Proof.
  intros Hv Hex. apply Customer_email_exists_spec in Hex.
  unfold CreateCustomer_mutate. now rewrite Hv, Hex.
Qed.

(** C5: with a valid and fresh email, an absent or empty phone passes the
    phone check (the customer is created); a non-empty phone that matches
    neither [^\+?\d{10,15}$] nor [^\d{3}-\d{3}-\d{4}$] is refused with
    "Invalid phone format"; a non-empty phone that matches one of them
    passes. *)
Theorem CreateCustomer_phone_check (s : Store price) (name email : string)
    (phone : option string) :
  validate_email email = true ->
  (forall c, In c (customers s) -> customer_email c <> email) ->
  let result :=
    fst (CreateCustomer_mutate validate_email s name email phone) in
  (phone = None \/ phone = Some EmptyString ->
     cc_success result = true
     /\ cc_message result = "Customer created successfully")
  /\ (forall p, phone = Some p -> p <> EmptyString ->
        Re.re_match Re.international_pattern p = false ->
        Re.re_match Re.dashed_pattern p = false ->
        result = mkCreateCustomer None false "Invalid phone format")
  /\ (forall p, phone = Some p -> p <> EmptyString ->
        Re.re_match Re.international_pattern p = true
        \/ Re.re_match Re.dashed_pattern p = true ->
        cc_success result = true
        /\ cc_message result = "Customer created successfully").
Proof.
  intros Hv Hfresh result.
  pose proof (fresh_email_not_found s email Hfresh) as Hf.
  subst result. rewrite (CreateCustomer_fresh s name email phone Hv Hf).
  split; [|split].
  - intros [->| ->]; simpl; auto.
  - intros p -> Hne H1 H2. destruct p as [|a rest]; [now destruct Hne|].
    simpl. now rewrite H1, H2.
  - intros p -> _ Hm. apply validate_phone_matching in Hm.
    destruct Hm as [-> _]. simpl. auto.
Qed.

(** C7: a valid and fresh email with a phone that, when present, matches
    an accepted pattern creates the customer: success, the message
    "Customer created successfully", and a customer with the name, the
    email and the phone of the input, which is the row appended to the
    table. *)
Theorem CreateCustomer_creates (s : Store price) (name email : string)
    (phone : option string) :
  validate_email email = true ->
  (forall c, In c (customers s) -> customer_email c <> email) ->
  (forall p, phone = Some p ->
     Re.re_match Re.international_pattern p = true
     \/ Re.re_match Re.dashed_pattern p = true) ->
  exists customer,
    fst (CreateCustomer_mutate validate_email s name email phone)
    = mkCreateCustomer (Some customer) true "Customer created successfully"
    /\ customer_name customer = name
    /\ customer_email customer = email
    /\ customer_phone customer
       = match phone with Some p => p | None => EmptyString end
    /\ customers
         (snd (CreateCustomer_mutate validate_email s name email phone))
       = customers s ++ [customer].
Proof.
  intros Hv Hfresh Hphone.
  pose proof (fresh_email_not_found s email Hfresh) as Hf.
  rewrite (CreateCustomer_fresh s name email phone Hv Hf).
  assert (Hok : validate_phone phone = true
                /\ or_empty phone
                   = match phone with Some p => p | None => EmptyString end).
  { destruct phone as [p|]; [|split; reflexivity].
    apply validate_phone_matching. now apply Hphone. }
  destruct Hok as [Hok Hp]. rewrite Hok, Hp.
  eexists. repeat split.
Qed.

(** ** [CreateProduct] *)

(** The resolver on an integer stock: price first, then stock, then the
    write. *)
Lemma CreateProduct_mutate_checks (s : Store price) (name : string)
    (p : price) (stock : Z) :
  (num_le_zero p = true ->
     CreateProduct_mutate s name p stock
     = (mkCreateProduct None false "Price must be positive", s))
  /\ (num_le_zero p = false -> (stock < 0)%Z ->
        CreateProduct_mutate s name p stock
        = (mkCreateProduct None false "Stock cannot be negative", s))
  /\ (num_le_zero p = false -> (0 <= stock)%Z ->
        let product := mkProduct (Some (next_product_pk s)) name p stock in
        fst (CreateProduct_mutate s name p stock)
        = mkCreateProduct (Some product) true "Product created successfully"
        /\ products (snd (CreateProduct_mutate s name p stock))
           = products s ++ [product]).
Proof.
  unfold CreateProduct_mutate. split; [|split].
  - intros ->. reflexivity.
  - intros -> Hs. apply Z.ltb_lt in Hs. now rewrite Hs.
  - intros -> Hs. apply Z.ltb_ge in Hs. rewrite Hs. simpl. auto.
Qed.

(** A call with a stock that is left out or an integer is the resolver
    on that integer. *)
Lemma CreateProduct_call_integer (s : Store price) (name : string)
    (p : price) (stock : argument Z) (n : Z) :
  bound_value 0%Z stock = Some n ->
  CreateProduct_call s name p stock
  = Returned (CreateProduct_mutate s name p n).
Proof.
  intros Hb. unfold CreateProduct_call, CreateProduct_mutate. rewrite Hb.
  destruct (num_le_zero p); [reflexivity|].
  destruct (n <? 0)%Z; reflexivity.
Qed.


(** ** [BulkCreateCustomers] *)

Lemma bulk_step_acc (s : Store price) (created : list Customer)
    (errs : list string) (c : CustomerInput) :
  bulk_step validate_email s (created, errs) c
  = (created ++ fst (bulk_one validate_email s c),
     errs ++ snd (bulk_one validate_email s c)).
Proof.
  unfold bulk_one, bulk_step.
  destruct (validate_email (input_email c));
    [destruct (Customer_email_exists s (input_email c));
     [|destruct (truthy (input_phone c)
                 && negb (Re.re_match Re.phone_pattern
                            (or_empty (input_phone c))))]|];
    simpl; now rewrite ?app_nil_r.
Qed.

Lemma bulk_fold_acc (s : Store price) (l : list CustomerInput) :
  forall created errs,
    fold_left (bulk_step validate_email s) l (created, errs)
    = (created ++ fst (bulk_loop validate_email s l),
       errs ++ snd (bulk_loop validate_email s l)).
Proof.
  unfold bulk_loop.
  induction l as [|c l IH]; intros created errs; cbn [fold_left].
  - cbn. now rewrite !app_nil_r.
  - rewrite (bulk_step_acc s created errs), (bulk_step_acc s [] []), IH.
    rewrite (IH ([] ++ fst (bulk_one validate_email s c))
               ([] ++ snd (bulk_one validate_email s c))).
    cbn [app fst snd]. now rewrite !app_assoc.
Qed.

(** The loop treats the records one by one: the lists for [l1 ++ l2] are
    the lists for [l1] followed by the lists for [l2]. *)
Lemma bulk_loop_app (s : Store price) (l1 l2 : list CustomerInput) :
  bulk_loop validate_email s (l1 ++ l2)
  = (fst (bulk_loop validate_email s l1)
       ++ fst (bulk_loop validate_email s l2),
     snd (bulk_loop validate_email s l1)
       ++ snd (bulk_loop validate_email s l2)).
Proof.
  unfold bulk_loop at 1. rewrite fold_left_app.
  fold (bulk_loop validate_email s l1).
  destruct (bulk_loop validate_email s l1) as [c1 e1].
  apply bulk_fold_acc.
Qed.

Lemma bulk_loop_cons (s : Store price) (c : CustomerInput)
    (l : list CustomerInput) :
  bulk_loop validate_email s (c :: l)
  = (fst (bulk_one validate_email s c) ++ fst (bulk_loop validate_email s l),
     snd (bulk_one validate_email s c) ++ snd (bulk_loop validate_email s l)).
Proof.
  change (c :: l) with ([c] ++ l). rewrite bulk_loop_app. reflexivity.
Qed.

(** One record: accepted records give a candidate and no error, rejected
    records give one error that starts with the email, and no candidate. *)
Lemma bulk_one_spec (s : Store price) (c : CustomerInput) :
  if record_passes validate_email s c
  then bulk_one validate_email s c = ([candidate c], [])
  else exists reason,
         bulk_one validate_email s c
         = ([], [(input_email c ++ ": " ++ reason)%string]).
Proof.
  unfold record_passes, bulk_one, bulk_step.
  fold (Customer_email_exists s (input_email c)).
  rewrite phone_test_spec.
  destruct (validate_email (input_email c)); simpl.
  - destruct (Customer_email_exists s (input_email c)); simpl.
    + now exists "Email already exists".
    + destruct (validate_phone (input_phone c)); simpl.
      * reflexivity.
      * now exists "Invalid phone format".
  - now exists "Invalid email format".
Qed.

Lemma bulk_loop_created (s : Store price) (l : list CustomerInput) :
  fst (bulk_loop validate_email s l)
  = map candidate (filter (record_passes validate_email s) l).
Proof.
  induction l as [|c l IH]; [reflexivity|].
  rewrite bulk_loop_cons. simpl. rewrite IH.
  pose proof (bulk_one_spec s c) as Hc.
  destruct (record_passes validate_email s c).
  - now rewrite Hc.
  - destruct Hc as [reason ->]. reflexivity.
Qed.

Lemma starts_with_app (a b : string) : starts_with a (a ++ b)%string = true.
Proof.
  induction a as [|x a IH]; simpl.
  - reflexivity.
  - now rewrite Ascii.eqb_refl.
Qed.

Lemma bulk_loop_errors (s : Store price) (l : list CustomerInput) :
  Forall2 (fun c e => starts_with (input_email c) e = true)
    (filter (record_fails validate_email s) l)
    (snd (bulk_loop validate_email s l)).
Proof.
  induction l as [|c l IH]; [constructor|].
  rewrite bulk_loop_cons. simpl. unfold record_fails at 1.
  pose proof (bulk_one_spec s c) as Hc.
  destruct (record_passes validate_email s c); simpl.
  - now rewrite Hc.
  - destruct Hc as [reason ->]. simpl. constructor; [|exact IH].
    apply starts_with_app.
Qed.

Lemma assign_pks_length (next : Z) (objs : list Customer) :
  List.length (assign_pks next objs) = List.length objs.
Proof.
  revert next. induction objs as [|c objs IH]; intros next; simpl;
    [reflexivity | now rewrite IH].
Qed.

Lemma assign_pks_fields (next : Z) (objs : list Customer) :
  map customer_fields (assign_pks next objs) = map customer_fields objs.
Proof.
  revert next. induction objs as [|c objs IH]; intros next; simpl;
    [reflexivity | now rewrite IH].
Qed.

Lemma assign_pks_app (next : Z) (l1 l2 : list Customer) :
  assign_pks next (l1 ++ l2)
  = assign_pks next l1
      ++ assign_pks (next + Z.of_nat (List.length l1)) l2.
Proof.
  revert next. induction l1 as [|c l1 IH]; intros next; simpl.
  - now rewrite Z.add_0_r.
  - rewrite IH. do 3 f_equal. lia.
Qed.

(** The resolver in terms of its loop. *)
Lemma BulkCreateCustomers_unfold (s : Store price)
    (l : list CustomerInput) :
  BulkCreateCustomers_mutate validate_email s l
  = (mkBulkCreateCustomers
       (assign_pks (next_customer_pk s) (fst (bulk_loop validate_email s l)))
       (snd (bulk_loop validate_email s l)),
     snd (Customer_bulk_create s (fst (bulk_loop validate_email s l)))).
Proof.
  unfold BulkCreateCustomers_mutate.
  now destruct (bulk_loop validate_email s l) as [created errs].
Qed.

Lemma filter_fails_length (s : Store price) (l : list CustomerInput) :
  (List.length (filter (record_passes validate_email s) l)
   + List.length (filter (record_fails validate_email s) l)
   = List.length l)%nat.
Proof.
  unfold record_fails. induction l as [|c l IH]; [reflexivity|].
  simpl. destruct (record_passes validate_email s c); simpl; lia.
Qed.

Lemma assign_pks_keys (objs : list Customer) :
  forall next,
    NoDup (map customer_pk (assign_pks next objs))
    /\ Forall (keyed_in next (next + Z.of_nat (List.length objs)))
         (map customer_pk (assign_pks next objs)).
Proof.
  induction objs as [|c objs IH]; intros next; simpl.
  - split; constructor.
  - destruct (IH (next + 1)%Z) as [Hnd Hin]. split.
    + constructor; [|exact Hnd]. intros Hc.
      rewrite Forall_forall in Hin. destruct (Hin _ Hc) as [i [E Hi]].
      inversion E; subst. lia.
    + constructor.
      * exists next. split; [reflexivity | lia].
      * eapply Forall_impl; [|exact Hin].
        intros k [i [-> Hi]]. exists i. split; [reflexivity | lia].
Qed.

Lemma bulk_created_fields (s : Store price) (l : list CustomerInput) :
  map customer_fields
    (created_customers (fst (BulkCreateCustomers_mutate validate_email s l)))
  = map customer_fields (fst (bulk_loop validate_email s l)).
Proof.
  rewrite BulkCreateCustomers_unfold. simpl. apply assign_pks_fields.
Qed.

(** C3: of [N] records of which [M] fail one of the three checks, the
    result holds [N - M] created customers and [M] error strings.  The
    created customers are customers that were created: each has the key
    the store gave it, and they are the [N - M] rows the call appended to
    the table of customers, one for each accepted record, in input order.
    The error strings start with the emails of the failing records, in
    input order, and the records around a failing record are processed as
    they are without it. *)
Theorem BulkCreateCustomers_counts (s : Store price)
    (records : list CustomerInput) :
  let result := fst (BulkCreateCustomers_mutate validate_email s records) in
  let rejected := filter (record_fails validate_email s) records in
  let N := List.length records in
  let M := List.length rejected in
  List.length (created_customers result) = (N - M)%nat
  /\ List.length (errors result) = M
  /\ customers (snd (BulkCreateCustomers_mutate validate_email s records))
     = customers s ++ created_customers result
  /\ List.length
       (customers (snd (BulkCreateCustomers_mutate validate_email s records)))
     = (List.length (customers s) + (N - M))%nat
  /\ Forall (fun k => exists i, customer_pk k = Some i
                                /\ (next_customer_pk s <= i)%Z)
       (created_customers result)
  /\ map customer_fields (created_customers result)
     = map (fun c => (input_name c, input_email c, or_empty (input_phone c)))
         (filter (record_passes validate_email s) records)
  /\ Forall2 (fun c e => starts_with (input_email c) e = true)
       rejected (errors result)
  /\ (forall before c after,
        records = before ++ c :: after ->
        record_fails validate_email s c = true ->
        let r1 := fst (BulkCreateCustomers_mutate validate_email s before) in
        let r2 := fst (BulkCreateCustomers_mutate validate_email s after) in
        map customer_fields (created_customers result)
        = map customer_fields (created_customers r1)
            ++ map customer_fields (created_customers r2)
        /\ exists e,
             starts_with (input_email c) e = true
             /\ errors result = errors r1 ++ e :: errors r2).
Proof.
  cbv zeta. pose proof (bulk_loop_errors s records) as Herr.
  pose proof (filter_fails_length s records) as Hlen.
  assert (Hcount :
    List.length
      (created_customers
         (fst (BulkCreateCustomers_mutate validate_email s records)))
    = (List.length records
       - List.length (filter (record_fails validate_email s) records))%nat).
  { rewrite BulkCreateCustomers_unfold. simpl.
    rewrite assign_pks_length, bulk_loop_created, length_map. lia. }
  split; [exact Hcount|].
  split; [|split; [|split; [|split; [|split; [|split]]]]].
  - rewrite BulkCreateCustomers_unfold. simpl.
    symmetry. eapply Forall2_length. exact Herr.
  - rewrite BulkCreateCustomers_unfold. reflexivity.
  - rewrite <- Hcount, BulkCreateCustomers_unfold. cbn.
    apply length_app.
  - rewrite BulkCreateCustomers_unfold. cbn [fst created_customers].
    apply Forall_forall. intros k Hk.
    destruct (assign_pks_keys (fst (bulk_loop validate_email s records))
                (next_customer_pk s)) as [_ Hkeys].
    rewrite Forall_forall in Hkeys.
    destruct (Hkeys (customer_pk k) (in_map _ _ _ Hk)) as [i [Ei Hi]].
    exists i. split; [exact Ei | lia].
  - rewrite bulk_created_fields, bulk_loop_created, map_map. reflexivity.
  - rewrite BulkCreateCustomers_unfold. exact Herr.
  - intros before c after -> Hc.
    rewrite !bulk_created_fields.
    rewrite (BulkCreateCustomers_unfold s (before ++ c :: after)).
    rewrite (BulkCreateCustomers_unfold s before).
    rewrite (BulkCreateCustomers_unfold s after).
    cbn [fst snd created_customers errors].
    rewrite bulk_loop_app, bulk_loop_cons. cbn [fst snd].
    pose proof (bulk_one_spec s c) as H1. unfold record_fails in Hc.
    destruct (record_passes validate_email s c); [discriminate Hc|].
    destruct H1 as [reason ->]. cbn [fst snd app].
    split; [now rewrite map_app|].
    eexists. split; [apply starts_with_app | reflexivity].
Qed.

(** C10: the created customers are the accepted records in input order,
    each with the name and the email of its record and with the phone of
    its record, the empty string when the record has no phone or an empty
    one; they are the rows appended to the table. *)
Theorem BulkCreateCustomers_keeps_order (s : Store price)
    (records : list CustomerInput) :
  let result := fst (BulkCreateCustomers_mutate validate_email s records) in
  Forall2
    (fun c k =>
       customer_name k = input_name c
       /\ customer_email k = input_email c
       /\ (input_phone c = None \/ input_phone c = Some EmptyString ->
           customer_phone k = EmptyString)
       /\ (forall p, input_phone c = Some p -> customer_phone k = p))
    (filter (record_passes validate_email s) records)
    (created_customers result)
  /\ customers (snd (BulkCreateCustomers_mutate validate_email s records))
     = customers s ++ created_customers result.
Proof.
  cbv zeta. rewrite BulkCreateCustomers_unfold. cbn [fst snd created_customers].
  split; [|reflexivity].
  rewrite bulk_loop_created.
  generalize (next_customer_pk s).
  induction (filter (record_passes validate_email s) records) as [|c l IH];
    intros next; simpl; constructor; [|apply IH].
  repeat split.
  - intros [->| ->]; reflexivity.
  - intros p ->. now destruct p.
Qed.

(** ** Well-formed stores are what the resolvers produce *)

Lemma pk_eqb_eq (a b : option Z) : pk_eqb a b = true <-> a = b.
Proof.
  destruct a as [i|], b as [j|]; simpl; try (split; congruence).
  rewrite Z.eqb_eq. split; congruence.
Qed.

Lemma distinct_pks_NoDup (ks : list (option Z)) :
  distinct_pks ks = true <-> NoDup ks.
Proof.
  induction ks as [|k ks IH]; simpl.
  - split; [constructor | reflexivity].
  - rewrite andb_true_iff, negb_true_iff, IH. split.
    + intros [Hk Hks]. constructor; [|exact Hks].
      intros Hin. assert (existsb (pk_eqb k) ks = true) as E.
      { apply existsb_exists. exists k. split; [exact Hin|].
        now apply pk_eqb_eq. }
      congruence.
    + intros Hnd. inversion Hnd as [|? ? Hk Hks]; subst. split; [|exact Hks].
      destruct (existsb (pk_eqb k) ks) eqn:E; [|reflexivity].
      apply existsb_exists in E. destruct E as [k' [Hin E]].
      apply pk_eqb_eq in E. subst k'. now destruct Hk.
Qed.

Lemma pk_below_spec (next : Z) (k : option Z) :
  pk_below next k = true <-> exists i, k = Some i /\ (i < next)%Z.
Proof.
  destruct k as [i|]; simpl.
  - rewrite Z.ltb_lt. split.
    + intros Hi. now exists i.
    + intros [j [E Hj]]. now inversion E; subst.
  - split; [discriminate | intros [j [E _]]; discriminate E].
Qed.

Lemma table_ok_spec (next : Z) (ks : list (option Z)) :
  table_ok next ks = true
  <-> NoDup ks /\ Forall (fun k => exists i, k = Some i /\ (i < next)%Z) ks.
Proof.
  unfold table_ok.
  rewrite andb_true_iff, distinct_pks_NoDup, forallb_forall, Forall_forall.
  split; intros [H1 H2]; split; auto; intros k Hk.
  - now apply pk_below_spec, H1.
  - now apply pk_below_spec, H2.
Qed.

(** Appending rows under keys taken from the counter keeps a table
    well formed. *)
Lemma table_ok_extend (next n : Z) (ks new : list (option Z)) :
  (0 <= n)%Z ->
  table_ok next ks = true ->
  NoDup new -> Forall (keyed_in next (next + n)) new ->
  table_ok (next + n) (ks ++ new) = true.
Proof.
  rewrite !table_ok_spec, !Forall_forall. intros Hn [Hnd Hlt] Hnew Hin.
  split.
  - apply NoDup_app; auto. intros k Hk Hk'.
    destruct (Hlt k Hk) as [i [-> Hi]].
    destruct (Hin _ Hk') as [j [E Hj]]. inversion E; subst. lia.
  - intros k Hk. apply in_app_or in Hk. destruct Hk as [Hk|Hk].
    + destruct (Hlt k Hk) as [i [-> Hi]].
      exists i. split; [reflexivity | lia].
    + destruct (Hin k Hk) as [j [-> Hj]]. exists j. split; [reflexivity|lia].
Qed.

Lemma table_ok_snoc (next : Z) (ks : list (option Z)) :
  table_ok next ks = true -> table_ok (next + 1) (ks ++ [Some next]) = true.
Proof.
  intros Hok. apply table_ok_extend; auto; try lia.
  - constructor; [intros [] | constructor].
  - constructor; [|constructor]. exists next. split; [reflexivity | lia].
Qed.

Lemma store_wf_empty : store_wf (@empty_store price).
Proof. repeat split. Qed.

Lemma CreateCustomer_wf (s : Store price) (name email : string)
    (phone : option string) :
  store_wf s ->
  store_wf (snd (CreateCustomer_mutate validate_email s name email phone)).
Proof.
  intros [Hc [Hp Ho]]. unfold CreateCustomer_mutate.
  destruct (validate_email email); [|now repeat split].
  destruct (Customer_email_exists s email); [now repeat split|].
  destruct (truthy phone && _); [now repeat split|].
  repeat split; simpl; auto.
  rewrite map_app. simpl. now apply table_ok_snoc.
Qed.

Lemma BulkCreateCustomers_wf (s : Store price) (l : list CustomerInput) :
  store_wf s ->
  store_wf (snd (BulkCreateCustomers_mutate validate_email s l)).
Proof.
  intros [Hc [Hp Ho]]. rewrite BulkCreateCustomers_unfold.
  repeat split; simpl; auto.
  rewrite map_app.
  destruct (assign_pks_keys (fst (bulk_loop validate_email s l))
              (next_customer_pk s)) as [Hnd Hin].
  apply table_ok_extend; auto. lia.
Qed.

Lemma CreateProduct_wf (s : Store price) (name : string) (p : price)
    (stock : Z) :
  store_wf s -> store_wf (snd (CreateProduct_mutate s name p stock)).
Proof.
  intros [Hc [Hp Ho]]. unfold CreateProduct_mutate.
  destruct (num_le_zero p); [now repeat split|].
  destruct (stock <? 0)%Z; [now repeat split|].
  repeat split; simpl; auto.
  rewrite map_app. simpl. now apply table_ok_snoc.
Qed.

Lemma CreateOrder_wf (s : Store price) (customer_id : Z)
    (product_ids : list Z) (order_date : option Z) (now : Z) :
  store_wf s ->
  store_wf (snd (CreateOrder_mutate s customer_id product_ids order_date now)).
Proof.
  intros [Hc [Hp Ho]]. unfold CreateOrder_mutate.
  destruct (Customer_get s customer_id); [|now repeat split].
  destruct product_ids as [|i ids]; [now repeat split|].
  destruct (negb _); [now repeat split|].
  repeat split; simpl; auto.
  rewrite map_app. simpl. now apply table_ok_snoc.
Qed.

(** ** [CreateOrder] *)

Lemma same_pk_eq (k : option Z) (i : Z) : same_pk k i = true <-> k = Some i.
Proof.
  destruct k as [j|]; simpl; [|split; discriminate].
  rewrite Z.eqb_eq. split; congruence.
Qed.

Lemma pk_in_spec (k : option Z) (ids : list Z) :
  pk_in k ids = true <-> exists i, In i ids /\ k = Some i.
Proof.
  unfold pk_in. rewrite existsb_exists.
  split; intros [i [Hi E]]; exists i; split; auto; now apply same_pk_eq.
Qed.

Lemma Customer_get_none (s : Store price) (pk : Z) :
  (forall c, In c (customers s) -> customer_pk c <> Some pk) ->
  Customer_get s pk = None.
Proof.
  intros Hno. unfold Customer_get.
  destruct (find _ (customers s)) as [c|] eqn:E; [|reflexivity].
  apply find_some in E. destruct E as [Hin Hc].
  apply same_pk_eq in Hc. now destruct (Hno c Hin).
Qed.

Lemma Customer_get_some (s : Store price) (pk : Z) :
  (exists c, In c (customers s) /\ customer_pk c = Some pk) ->
  exists c, Customer_get s pk = Some c.
Proof.
  intros [c [Hin Hc]]. unfold Customer_get.
  destruct (find _ (customers s)) as [c'|] eqn:E; [now exists c'|].
  apply (find_none _ _ E) in Hin. apply same_pk_eq in Hc. congruence.
Qed.

(** The keys of the resolved products are keys that were asked for. *)
Lemma resolved_keys_incl (s : Store price) (ids : list Z) :
  incl (map product_pk (Product_filter_id_in s ids)) (map Some ids).
Proof.
  intros k Hk. apply in_map_iff in Hk. destruct Hk as [p [<- Hp]].
  apply filter_In in Hp. destruct Hp as [_ Hp].
  apply pk_in_spec in Hp. destruct Hp as [i [Hi ->]].
  now apply in_map.
Qed.

Lemma resolved_keys_NoDup (s : Store price) (ids : list Z) :
  store_wf s -> NoDup (map product_pk (Product_filter_id_in s ids)).
Proof.
  intros [_ [Hp _]]. apply table_ok_spec in Hp. destruct Hp as [Hnd _].
  unfold Product_filter_id_in.
  rewrite <- (filter_map_swap (fun k => pk_in k ids) product_pk).
  now apply NoDup_filter.
Qed.

(** On a well-formed store a request resolves to at most as many
    products as it lists keys, and to exactly as many only when no key is
    listed twice. *)
Lemma resolved_count (s : Store price) (ids : list Z) :
  store_wf s ->
  (List.length (Product_filter_id_in s ids) <= List.length ids)%nat
  /\ (List.length (Product_filter_id_in s ids) = List.length ids ->
      NoDup ids).
Proof.
  intros Hwf.
  pose proof (resolved_keys_NoDup s ids Hwf) as Hnd.
  pose proof (resolved_keys_incl s ids) as Hincl.
  split.
  - apply NoDup_incl_length in Hincl; [|exact Hnd].
    now rewrite !length_map in Hincl.
  - intros Hlen. apply (NoDup_map_inv Some).
    apply (NoDup_incl_NoDup Hnd); [|exact Hincl].
    rewrite !length_map. lia.
Qed.

Lemma repeated_key_not_NoDup (l1 l2 l3 : list Z) (i : Z) :
  ~ NoDup (l1 ++ i :: l2 ++ i :: l3).
Proof.
  intros Hnd. apply NoDup_remove_2 in Hnd. apply Hnd.
  apply in_or_app. right. apply in_or_app. right. now left.
Qed.

Lemma CreateOrder_count_mismatch (s : Store price) (customer_id : Z)
    (product_ids : list Z) (order_date : option Z) (now : Z)
    (customer : Customer) :
  Customer_get s customer_id = Some customer ->
  product_ids <> [] ->
  List.length (Product_filter_id_in s product_ids)
  <> List.length product_ids ->
  fst (CreateOrder_mutate s customer_id product_ids order_date now)
  = mkCreateOrder None false "Invalid product ID(s)".
Proof.
  intros Hget Hne Hlen. unfold CreateOrder_mutate. rewrite Hget.
  destruct product_ids as [|i ids]; [now destruct Hne|].
  cbv zeta. apply Nat.eqb_neq in Hlen. now rewrite Hlen.
Qed.

(** The resolver on keys: the customer, then the empty list, then the
    count of the resolved products. *)
Lemma CreateOrder_mutate_checks (s : Store price) (customer_id : Z)
    (product_ids : list Z) (order_date : option Z) (now : Z) :
  let result :=
    fst (CreateOrder_mutate s customer_id product_ids order_date now) in
  ((forall c, In c (customers s) -> customer_pk c <> Some customer_id) ->
   result = mkCreateOrder None false "Customer not found")
  /\ ((exists c, In c (customers s) /\ customer_pk c = Some customer_id) ->
      (product_ids = [] ->
       result = mkCreateOrder None false "No products selected")
      /\ (product_ids <> [] ->
          List.length (Product_filter_id_in s product_ids)
          <> List.length product_ids ->
          result = mkCreateOrder None false "Invalid product ID(s)")
      /\ (store_wf s ->
          forall l1 i l2 l3, product_ids = l1 ++ i :: l2 ++ i :: l3 ->
          result = mkCreateOrder None false "Invalid product ID(s)")).
Proof.
  cbv zeta. split.
  - intros Hno. unfold CreateOrder_mutate.
    now rewrite (Customer_get_none s customer_id Hno).
  - intros Hex. destruct (Customer_get_some s customer_id Hex) as [c Hget].
    split; [|split].
    + intros ->. unfold CreateOrder_mutate. now rewrite Hget.
    + now apply CreateOrder_count_mismatch with (customer := c).
    + intros Hwf l1 i l2 l3 E.
      apply CreateOrder_count_mismatch with (customer := c); [exact Hget| |].
      * rewrite E. now destruct l1.
      * intros Hlen. apply (resolved_count s product_ids Hwf) in Hlen.
        rewrite E in Hlen. now apply repeated_key_not_NoDup in Hlen.
Qed.

Lemma prep_ids_length (product_ids : list (option string)) (ids : list Z) :
  prep_ids to_pk product_ids = Some ids ->
  (List.length ids <= List.length product_ids)%nat
  /\ (In None product_ids ->
      (List.length ids < List.length product_ids)%nat).
Proof.
  revert ids. induction product_ids as [|[id|] rest IH]; intros ids; cbn.
  - intros E. inversion E. split; [reflexivity | intros []].
  - destruct (to_pk id) as [i|]; [|discriminate].
    destruct (prep_ids to_pk rest) as [ids'|]; [|discriminate].
    intros E. inversion E; subst. destruct (IH ids' eq_refl) as [Hle Hlt].
    cbn. split; [lia|]. intros [E'|Hin]; [discriminate E'|].
    specialize (Hlt Hin). lia.
  - intros E. destruct (IH ids E) as [Hle _]. split; [lia|]. intros _. lia.
Qed.

(** A call whose ids all convert, none of them [null], is the resolver on
    the keys. *)
Lemma CreateOrder_call_keys (s : Store price) (customer_id : string)
    (product_ids : list (option string)) (order_date : option Z) (now : Z)
    (pk : Z) (ids : list Z) :
  to_pk customer_id = Some pk ->
  prep_ids to_pk product_ids = Some ids ->
  List.length ids = List.length product_ids ->
  CreateOrder_call to_pk s customer_id product_ids order_date now
  = Returned (CreateOrder_mutate s pk ids order_date now).
Proof.
  intros Hpk Hids Hlen. unfold CreateOrder_call, CreateOrder_mutate.
  rewrite Hpk. destruct (Customer_get s pk) as [c|]; [|reflexivity].
  destruct product_ids as [|x rest]; destruct ids as [|i ids'];
    try discriminate Hlen; [reflexivity|].
  rewrite Hids, <- Hlen. cbv zeta.
  destruct (negb _); reflexivity.
Qed.

Lemma CreateOrder_call_mismatch (s : Store price) (customer_id : string)
    (product_ids : list (option string)) (order_date : option Z) (now : Z)
    (pk : Z) (customer : Customer) (ids : list Z) :
  to_pk customer_id = Some pk ->
  Customer_get s pk = Some customer ->
  product_ids <> [] ->
  prep_ids to_pk product_ids = Some ids ->
  List.length (Product_filter_id_in s ids) <> List.length product_ids ->
  CreateOrder_call to_pk s customer_id product_ids order_date now
  = Returned (mkCreateOrder None false "Invalid product ID(s)", s).
Proof.
  intros Hpk Hget Hne Hids Hlen. unfold CreateOrder_call.
  rewrite Hpk, Hget.
  destruct product_ids as [|x rest]; [now destruct Hne|].
  rewrite Hids. cbv zeta. apply Nat.eqb_neq in Hlen. now rewrite Hlen.
Qed.


(** A successful [CreateOrder], step by step. *)
Lemma CreateOrder_success (s : Store price) (customer_id : Z)
    (product_ids : list Z) (order_date : option Z) (now : Z) :
  co_success
    (fst (CreateOrder_mutate s customer_id product_ids order_date now))
  = true ->
  exists customer,
    Customer_get s customer_id = Some customer
    /\ product_ids <> []
    /\ List.length (Product_filter_id_in s product_ids)
       = List.length product_ids
    /\ let resolved := Product_filter_id_in s product_ids in
       let order :=
         mkOrder (Some (next_order_pk s)) customer (or_else order_date now)
           (sum (map product_price resolved)) in
       CreateOrder_mutate s customer_id product_ids order_date now
       = (mkCreateOrder (Some order) true "Order created successfully",
          Order_products_set
            (snd (Order_create s customer (or_else order_date now)
                    (sum (map product_price resolved))))
            order resolved).
Proof.
  unfold CreateOrder_mutate.
  destruct (Customer_get s customer_id) as [customer|]; [|discriminate].
  destruct product_ids as [|i ids]; [discriminate|].
  cbv zeta.
  destruct (List.length (Product_filter_id_in s (i :: ids))
            =? List.length (i :: ids))%nat eqn:E; [|discriminate].
  intros _. exists customer. apply Nat.eqb_eq in E.
  repeat split; auto. discriminate.
Qed.

Lemma link_eqb_eq (a b : Z * Z) : link_eqb a b = true <-> a = b.
Proof.
  destruct a as [a1 a2], b as [b1 b2]. unfold link_eqb. simpl.
  rewrite andb_true_iff, !Z.eqb_eq. split; [intros [-> ->]|intros E].
  - reflexivity.
  - inversion E. auto.
Qed.

(** After [order.products.set(objs)] the order is linked to a key exactly
    when a product of [objs] has that key. *)
Lemma links_after_set (s : Store price) (order : Order price)
    (objs : list (Product price)) (o i : Z) :
  order_pk order = Some o ->
  existsb (link_eqb (o, i))
    (order_products (Order_products_set s order objs))
  = existsb (fun p => same_pk (product_pk p) i) objs.
Proof.
  intros Ho. unfold Order_products_set. rewrite Ho. cbn [order_products].
  apply eq_true_iff_eq.
  rewrite existsb_app, orb_true_iff, !existsb_exists. split.
  - intros [[l [Hl E]]|[l [Hl E]]]; apply link_eqb_eq in E; subst l.
    + apply filter_In in Hl. destruct Hl as [_ Hl]. cbn [fst snd] in Hl.
      rewrite Z.eqb_refl in Hl. simpl in Hl. now apply existsb_exists in Hl.
    + apply in_flat_map in Hl. destruct Hl as [p [Hp Hl]].
      exists p. split; [exact Hp|].
      destruct (product_pk p) as [j|]; [|now destruct Hl].
      destruct (existsb (link_eqb (o, j)) (order_products s));
        [now destruct Hl|].
      destruct Hl as [E|[]]. inversion E; subst. simpl. apply Z.eqb_refl.
  - intros [p [Hp Hi]].
    destruct (existsb (link_eqb (o, i)) (order_products s)) eqn:Eold.
    + left. apply existsb_exists in Eold. destruct Eold as [l [Hl E]].
      exists l. split; [|exact E]. apply link_eqb_eq in E. subst l.
      apply filter_In. split; [exact Hl|]. cbn [fst snd].
      rewrite Z.eqb_refl. simpl. apply existsb_exists. now exists p.
    + right. exists (o, i). split; [|now apply link_eqb_eq].
      apply in_flat_map. exists p. split; [exact Hp|].
      apply same_pk_eq in Hi. rewrite Hi, Eold. now left.
Qed.

(** The products of a new order are the resolved products, in table
    order. *)
Lemma Order_products_resolved (s : Store price) (order : Order price)
    (ids : list Z) (o : Z) :
  order_pk order = Some o ->
  Order_products
    (Order_products_set s order (Product_filter_id_in s ids)) order
  = Product_filter_id_in s ids.
Proof.
  intros Ho. unfold Order_products. rewrite Ho.
  replace (products (Order_products_set s order (Product_filter_id_in s ids)))
    with (products s) by (unfold Order_products_set; now rewrite Ho).
  unfold Product_filter_id_in at 2. apply filter_ext_in. intros p Hp.
  destruct (product_pk p) as [i|] eqn:Ep.
  2:{ symmetry. destruct (pk_in None ids) eqn:E; [|reflexivity].
      apply pk_in_spec in E. destruct E as [i [_ E]]. discriminate E. }
  rewrite (links_after_set s order _ o i Ho).
  apply eq_true_iff_eq. rewrite existsb_exists, pk_in_spec. split.
  - intros [q [Hq Hi]]. apply same_pk_eq in Hi.
    apply filter_In in Hq. destruct Hq as [_ Hq].
    rewrite Hi in Hq. now apply pk_in_spec in Hq.
  - intros Hi. exists p. split.
    + apply filter_In. split; [exact Hp|]. rewrite Ep. now apply pk_in_spec.
    + rewrite Ep. now apply same_pk_eq.
Qed.

(** For every carrier of prices: on success the order carries the sum of
    the prices of the resolved products, is linked to exactly these
    products, and is the row appended to the table of orders. *)
Lemma CreateOrder_total_and_products (s : Store price) (customer_id : Z)
    (product_ids : list Z) (order_date : option Z) (now : Z) :
  co_success
    (fst (CreateOrder_mutate s customer_id product_ids order_date now))
  = true ->
  let resolved := Product_filter_id_in s product_ids in
  let s' := snd (CreateOrder_mutate s customer_id product_ids order_date now) in
  exists order,
    co_order
      (fst (CreateOrder_mutate s customer_id product_ids order_date now))
    = Some order
    /\ order_total_amount order = sum (map product_price resolved)
    /\ Order_products s' order = resolved
    /\ orders s' = orders s ++ [order].
Proof.
  intros Hok. cbv zeta.
  destruct (CreateOrder_success s customer_id product_ids order_date now Hok)
    as [customer [_ [_ [_ Hrun]]]].
  cbv zeta in Hrun. rewrite Hrun. cbn [fst snd co_order].
  eexists. split; [reflexivity|]. cbn [order_total_amount].
  split; [reflexivity|]. split.
  - pose proof (Order_products_resolved
                  (snd (Order_create s customer (or_else order_date now)
                          (sum (map product_price
                                  (Product_filter_id_in s product_ids)))))
                  (mkOrder (Some (next_order_pk s)) customer
                     (or_else order_date now)
                     (sum (map product_price
                             (Product_filter_id_in s product_ids))))
                  product_ids (next_order_pk s) eq_refl) as Hset.
    exact Hset.
  - reflexivity.
Qed.

(** ** Failures and the store *)

Lemma bulk_one_error_no_candidate (s : Store price) (c : CustomerInput) :
  snd (bulk_one validate_email s c) <> [] ->
  fst (bulk_one validate_email s c) = [].
Proof.
  intros Herr. pose proof (bulk_one_spec s c) as Hc.
  destruct (record_passes validate_email s c).
  - rewrite Hc in Herr. now destruct Herr.
  - destruct Hc as [reason ->]. reflexivity.
Qed.

Lemma Customer_bulk_create_nil (s : Store price) :
  snd (Customer_bulk_create s []) = s.
Proof.
  destruct s. unfold Customer_bulk_create. simpl.
  now rewrite app_nil_r, Z.add_0_r.
Qed.

(** C9: a [CreateCustomer], [CreateProduct] or [CreateOrder] that returns
    [success = false] returns the store it was given.  In
    [BulkCreateCustomers] a record that produces an error string adds
    nothing to the batch write: the store after the call is the store
    the call leaves without that record, and a call that creates no
    customer returns the store it was given. *)
Theorem failure_leaves_store_unchanged :
  (forall (s : Store price) name email phone,
     cc_success (fst (CreateCustomer_mutate validate_email s name email phone))
     = false ->
     snd (CreateCustomer_mutate validate_email s name email phone) = s)
  /\ (forall (s : Store price) name p stock,
        cp_success (fst (CreateProduct_mutate s name p stock)) = false ->
        snd (CreateProduct_mutate s name p stock) = s)
  /\ (forall (s : Store price) customer_id product_ids order_date now,
        co_success
          (fst (CreateOrder_mutate s customer_id product_ids order_date now))
        = false ->
        snd (CreateOrder_mutate s customer_id product_ids order_date now) = s)
  /\ (forall (s : Store price) before c after,
        snd (bulk_one validate_email s c) <> [] ->
        snd (BulkCreateCustomers_mutate validate_email s (before ++ c :: after))
        = snd (BulkCreateCustomers_mutate validate_email s (before ++ after)))
  /\ (forall (s : Store price) records,
        created_customers
          (fst (BulkCreateCustomers_mutate validate_email s records)) = [] ->
        snd (BulkCreateCustomers_mutate validate_email s records) = s).
Proof.
  split; [|split; [|split; [|split]]].
  - intros s name email phone. unfold CreateCustomer_mutate.
    destruct (validate_email email); [|reflexivity].
    destruct (Customer_email_exists s email); [reflexivity|].
    destruct (truthy phone && _); [reflexivity|discriminate].
  - intros s name p stock. unfold CreateProduct_mutate.
    destruct (num_le_zero p); [reflexivity|].
    destruct (stock <? 0)%Z; [reflexivity|discriminate].
  - intros s customer_id product_ids order_date now.
    unfold CreateOrder_mutate.
    destruct (Customer_get s customer_id); [|reflexivity].
    destruct product_ids as [|i ids]; [reflexivity|].
    cbv zeta. destruct (negb _); [reflexivity|discriminate].
  - intros s before c after Herr.
    apply bulk_one_error_no_candidate in Herr.
    rewrite !BulkCreateCustomers_unfold. cbn [snd].
    rewrite !bulk_loop_app, bulk_loop_cons. cbn [fst].
    now rewrite Herr.
  - intros s records. rewrite BulkCreateCustomers_unfold.
    cbn [fst snd created_customers]. intros Hnone.
    assert (fst (bulk_loop validate_email s records) = []) as ->.
    { apply length_zero_iff_nil.
      rewrite <- (assign_pks_length (next_customer_pk s)), Hnone.
      reflexivity. }
    apply Customer_bulk_create_nil.
Qed.

(** ** Names *)

(** C8, as the resolvers have it: a persisted customer has the name of
    its input record, unchanged; the name is not checked, so a record
    with an empty name that passes the email and phone checks is
    persisted with an empty name. *)
Theorem persisted_name_is_input_name :
  (forall (s : Store price) name email phone,
     let s' := snd (CreateCustomer_mutate validate_email s name email phone) in
     customers s' = customers s
     \/ exists c, customers s' = customers s ++ [c] /\ customer_name c = name)
  /\ (forall (s : Store price) records,
        let s' := snd (BulkCreateCustomers_mutate validate_email s records) in
        exists batch,
          customers s' = customers s ++ batch
          /\ map customer_name batch
             = map input_name
                 (filter (record_passes validate_email s) records))
  /\ (forall (s : Store price) name email phone,
        record_passes validate_email s (mkCustomerInput name email phone)
        = true ->
        let s' :=
          snd (CreateCustomer_mutate validate_email s name email phone) in
        exists c, customers s' = customers s ++ [c] /\ customer_name c = name).
Proof.
  split; [|split].
  - intros s name email phone. cbv zeta. unfold CreateCustomer_mutate.
    destruct (validate_email email); [|now left].
    destruct (Customer_email_exists s email); [now left|].
    destruct (truthy phone && _); [now left|].
    right. eexists. split; reflexivity.
  - intros s records. cbv zeta. rewrite BulkCreateCustomers_unfold.
    eexists. split; [reflexivity|].
    rewrite bulk_loop_created. generalize (next_customer_pk s).
    induction (filter (record_passes validate_email s) records) as [|c l IH];
      intros next; simpl; [reflexivity | now rewrite IH].
  - intros s name email phone Hpass. cbv zeta.
    unfold record_passes in Hpass. cbn [input_email input_phone] in Hpass.
    apply andb_true_iff in Hpass. destruct Hpass as [Hpass Hphone].
    apply andb_true_iff in Hpass. destruct Hpass as [Hv Hfresh].
    apply negb_true_iff in Hfresh.
    rewrite (CreateCustomer_fresh s name email phone Hv Hfresh), Hphone.
    eexists. split; reflexivity.
Qed.

End Properties.

(* ================================================================== *)
(** * The worked examples                                               *)
(* ================================================================== *)

Lemma shop_wf : store_wf shop.
Proof. repeat split. Qed.

Lemma alice_in_shop :
  exists c, In c (customers shop) /\ customer_pk c = Some 1%Z.
Proof. exists alice. split; [left|]; reflexivity. Qed.

Lemma fresh_in_shop (email : string) :
  String.eqb "alice@example.com" email = false ->
  forall c, In c (customers shop) -> customer_email c <> email.
Proof.
  intros Hne c [<-|[]] E. simpl in E. apply String.eqb_eq in E. congruence.
Qed.

(** C2: a successful [CreateOrder] returns an order whose [total_amount]
    is the sum of the prices of the products resolved from [product_ids]
    and whose products are these products.  In particular: create a
    customer C and the products P1 (10.00) and P2 (15.50) on the empty
    store; then [CreateOrder(C.id, [P1.id, P2.id])] succeeds with a total
    equal to 25.50 and the products P1 and P2. *)
Theorem CreateOrder_total_amount :
  (forall (price : Type) (N : Numeric price) (s : Store price)
          (customer_id : Z) (product_ids : list Z) (order_date : option Z)
          (now : Z),
     co_success
       (fst (CreateOrder_mutate s customer_id product_ids order_date now))
     = true ->
     let resolved := Product_filter_id_in s product_ids in
     let s' :=
       snd (CreateOrder_mutate s customer_id product_ids order_date now) in
     exists order,
       co_order
         (fst (CreateOrder_mutate s customer_id product_ids order_date now))
       = Some order
       /\ order_total_amount order = sum (map product_price resolved)
       /\ Order_products s' order = resolved
       /\ orders s' = orders s ++ [order])
  /\ (let r1 :=
        CreateCustomer_mutate sample_validate_email (@empty_store Q)
          "Alice" "alice@example.com" None in
      let r2 := CreateProduct_mutate (snd r1) "P1" 10.00%Q 0 in
      let r3 := CreateProduct_mutate (snd r2) "P2" 15.50%Q 0 in
      cc_customer (fst r1) = Some alice
      /\ cp_product (fst r2) = Some P1
      /\ cp_product (fst r3) = Some P2
      /\ snd r3 = shop
      /\ forall (order_date : option Z) (now : Z),
           exists order,
             fst (CreateOrder_mutate shop 1 [1; 2]%Z order_date now)
             = mkCreateOrder (Some order) true "Order created successfully"
             /\ Qeq (order_total_amount order) 25.50%Q
             /\ Order_products
                  (snd (CreateOrder_mutate shop 1 [1; 2]%Z order_date now))
                  order
                = [P1; P2]).
Proof.
  split.
  - intros price N s customer_id product_ids order_date now.
    apply CreateOrder_total_and_products.
  - cbv zeta. repeat (split; [reflexivity|]).
    intros order_date now. eexists. repeat split.
Qed.

Lemma CreateOrder_total_amount_witness :
  exists order,
    co_order (fst (CreateOrder_mutate shop 1 [2]%Z (Some 7%Z) 0)) = Some order
    /\ order_total_amount order = sum (map product_price [P2])
    /\ Order_products (snd (CreateOrder_mutate shop 1 [2]%Z (Some 7%Z) 0))
         order
       = [P2]
    /\ orders (snd (CreateOrder_mutate shop 1 [2]%Z (Some 7%Z) 0))
       = orders shop ++ [order].
Proof.
  exact (proj1 CreateOrder_total_amount Q Numeric_Q shop 1%Z [2%Z]
           (Some 7%Z) 0%Z eq_refl).
Defined.



Lemma CreateCustomer_email_taken_witness :
  sample_validate_email "alice@example.com" = true
  /\ CreateCustomer_mutate sample_validate_email shop
       "Alice II" "alice@example.com" (Some "12345")
     = (mkCreateCustomer None false "Email already exists", shop).
Proof.
  split; [reflexivity|].
  apply (CreateCustomer_email_taken sample_validate_email shop).
  - reflexivity.
  - exists alice. split; [left|]; reflexivity.
Defined.

Lemma CreateCustomer_phone_check_witness :
  cc_success
    (fst (CreateCustomer_mutate sample_validate_email shop
            "Bob" "bob@example.com" None)) = true
  /\ cc_success
       (fst (CreateCustomer_mutate sample_validate_email shop
               "Bob" "bob@example.com" (Some EmptyString))) = true
  /\ fst (CreateCustomer_mutate sample_validate_email shop
            "Bob" "bob@example.com" (Some "12345"))
     = mkCreateCustomer None false "Invalid phone format"
  /\ cc_success
       (fst (CreateCustomer_mutate sample_validate_email shop
               "Bob" "bob@example.com" (Some "+4915112345678"))) = true.
Proof.
  pose proof (fresh_in_shop "bob@example.com" eq_refl) as Hfresh.
  split; [|split; [|split]].
  - exact (proj1 (proj1 (CreateCustomer_phone_check sample_validate_email
                           shop "Bob" "bob@example.com" None
                           eq_refl Hfresh)
                    (or_introl eq_refl))).
  - exact (proj1 (proj1 (CreateCustomer_phone_check sample_validate_email
                           shop "Bob" "bob@example.com" (Some EmptyString)
                           eq_refl Hfresh)
                    (or_intror eq_refl))).
  - apply (proj1 (proj2 (CreateCustomer_phone_check sample_validate_email
                           shop "Bob" "bob@example.com" (Some "12345")
                           eq_refl Hfresh)) "12345");
      [reflexivity | discriminate | reflexivity | reflexivity].
  - apply (proj2 (proj2 (CreateCustomer_phone_check sample_validate_email
                           shop "Bob" "bob@example.com"
                           (Some "+4915112345678")
                           eq_refl Hfresh)) "+4915112345678");
      [reflexivity | discriminate | left; reflexivity].
Defined.

Lemma CreateCustomer_creates_witness :
  exists customer,
    fst (CreateCustomer_mutate sample_validate_email shop
           "Bob" "bob@example.com" (Some "123-456-7890"))
    = mkCreateCustomer (Some customer) true "Customer created successfully"
    /\ customer_name customer = "Bob"
    /\ customer_email customer = "bob@example.com"
    /\ customer_phone customer = "123-456-7890"
    /\ customers
         (snd (CreateCustomer_mutate sample_validate_email shop
                 "Bob" "bob@example.com" (Some "123-456-7890")))
       = customers shop ++ [customer].
Proof.
  apply (CreateCustomer_creates sample_validate_email shop
           "Bob" "bob@example.com" (Some "123-456-7890")).
  - reflexivity.
  - apply fresh_in_shop. reflexivity.
  - intros p E. inversion E; subst. right. reflexivity.
Defined.



Lemma BulkCreateCustomers_counts_witness :
  let run :=
    BulkCreateCustomers_mutate sample_validate_email shop six_records in
  List.length (created_customers (fst run)) = (6 - 3)%nat
  /\ List.length (errors (fst run)) = 3%nat
  /\ customers (snd run) = customers shop ++ created_customers (fst run)
  /\ List.length (customers (snd run)) = (1 + (6 - 3))%nat
  /\ Forall (fun k => exists i, customer_pk k = Some i /\ (2 <= i)%Z)
       (created_customers (fst run))
  /\ (exists e,
        starts_with "dan.example.com" e = true
        /\ errors (fst run)
           = errors (fst (BulkCreateCustomers_mutate sample_validate_email
                            shop [bob_input]))
               ++ e
               :: errors (fst (BulkCreateCustomers_mutate
                                 sample_validate_email shop
                                 [taken_email_input; carol_input;
                                  bad_phone_input; nameless_input]))).
Proof.
  destruct (BulkCreateCustomers_counts sample_validate_email shop six_records)
    as (H1 & H2 & H3 & H4 & H5 & _ & _ & H8).
  split; [exact H1|]. split; [exact H2|]. split; [exact H3|].
  split; [exact H4|]. split; [exact H5|].
  exact (proj2 (H8 [bob_input] bad_email_input
                  [taken_email_input; carol_input; bad_phone_input;
                   nameless_input] eq_refl eq_refl)).
Defined.

Lemma BulkCreateCustomers_keeps_order_witness :
  map customer_fields
    (created_customers
       (fst (BulkCreateCustomers_mutate sample_validate_email shop
               six_records)))
  = [("Bob", "bob@example.com", "123-456-7890");
     ("Carol", "carol@example.com", EmptyString);
     (EmptyString, "nobody@example.com", EmptyString)]
  /\ customers
       (snd (BulkCreateCustomers_mutate sample_validate_email shop
               six_records))
     = customers shop
         ++ created_customers
              (fst (BulkCreateCustomers_mutate sample_validate_email shop
                      six_records)).
Proof.
  split; [reflexivity|].
  exact (proj2 (BulkCreateCustomers_keeps_order sample_validate_email shop
                  six_records)).
Defined.

Lemma failure_leaves_store_unchanged_witness :
  snd (CreateCustomer_mutate sample_validate_email shop
         "Dan" "dan.example.com" None) = shop
  /\ snd (CreateProduct_mutate shop "P3" 0%Q 5) = shop
  /\ snd (CreateOrder_mutate shop 1 [1; 1]%Z None 0) = shop
  /\ snd (BulkCreateCustomers_mutate sample_validate_email shop
            ([bob_input] ++ bad_phone_input :: [carol_input]))
     = snd (BulkCreateCustomers_mutate sample_validate_email shop
              ([bob_input] ++ [carol_input]))
  /\ snd (BulkCreateCustomers_mutate sample_validate_email shop
            [bad_email_input; taken_email_input]) = shop.
Proof.
  destruct (@failure_leaves_store_unchanged Q Numeric_Q sample_validate_email)
    as [H1 [H2 [H3 [H4 H5]]]].
  split; [|split; [|split; [|split]]].
  - apply H1. reflexivity.
  - apply H2. reflexivity.
  - apply H3. reflexivity.
  - apply H4. discriminate.
  - apply H5. reflexivity.
Defined.

(** "Every persisted customer has a non-empty name" fails for both
    resolvers: a record with an empty name and a valid, fresh email is
    persisted as it is. *)
Lemma empty_name_is_persisted :
  ~ (forall (validate_email : string -> bool) (s : Store Q)
            (name email : string) (phone : option string) (c : Customer),
       In c (customers
               (snd (CreateCustomer_mutate validate_email s name email
                       phone))) ->
       ~ In c (customers s) ->
       customer_name c <> EmptyString)
  /\ ~ (forall (validate_email : string -> bool) (s : Store Q)
               (records : list CustomerInput) (c : Customer),
          In c (customers
                  (snd (BulkCreateCustomers_mutate validate_email s
                          records))) ->
          ~ In c (customers s) ->
          customer_name c <> EmptyString).
Proof.
  split; intros Hall.
  - apply (Hall sample_validate_email empty_store
             EmptyString "nobody@example.com" None
             (mkCustomer (Some 1%Z) EmptyString "nobody@example.com"
                EmptyString)).
    + left. reflexivity.
    + intros [].
    + reflexivity.
  - apply (Hall sample_validate_email empty_store [nameless_input]
             (mkCustomer (Some 1%Z) EmptyString "nobody@example.com"
                EmptyString)).
    + left. reflexivity.
    + intros [].
    + reflexivity.
Qed.

Lemma persisted_name_is_input_name_witness :
  exists c,
    customers
      (snd (CreateCustomer_mutate sample_validate_email shop
              EmptyString "nobody@example.com" None))
    = customers shop ++ [c]
    /\ customer_name c = EmptyString.
Proof.
  exact (proj2 (proj2 (@persisted_name_is_input_name Q sample_validate_email))
           shop EmptyString "nobody@example.com" None eq_refl).
Defined.

(** ** Prices as floats *)

Example float_total_amount :
  option_map order_total_amount
    (co_order (fst (CreateOrder_mutate shop_float 1 [1; 2]%Z None 0)))
  = Some 25.5%float.
Proof. vm_compute. reflexivity. Qed.

Example float_price_zero :
  fst (CreateProduct_mutate shop_float "P3" 0%float 5)
  = mkCreateProduct None false "Price must be positive".
Proof. vm_compute. reflexivity. Qed.

Example float_price_negative :
  fst (CreateProduct_mutate shop_float "P3" (-5)%float (-1))
  = mkCreateProduct None false "Price must be positive".
Proof. vm_compute. reflexivity. Qed.

(** ** The phone pattern on sample strings *)

Example phone_ok_plain : Re.re_match Re.phone_pattern "1234567890" = true.
Proof. reflexivity. Qed.

Example phone_ok_plus :
  Re.re_match Re.phone_pattern "+123456789012345" = true.
Proof. reflexivity. Qed.

Example phone_ok_dashed : Re.re_match Re.phone_pattern "123-456-7890" = true.
Proof. reflexivity. Qed.

Example phone_too_short : Re.re_match Re.phone_pattern "123456789" = false.
Proof. reflexivity. Qed.

Example phone_too_long :
  Re.re_match Re.phone_pattern "1234567890123456" = false.
Proof. reflexivity. Qed.

Example phone_bad_groups : Re.re_match Re.phone_pattern "123-4567-890" = false.
Proof. reflexivity. Qed.

Example phone_plus_dashed :
  Re.re_match Re.phone_pattern "+123-456-7890" = false.
Proof. reflexivity. Qed.

Example phone_letters : Re.re_match Re.phone_pattern "12345abcde" = false.
Proof. reflexivity. Qed.

(** [$] also matches before a newline that ends the string. *)
Example phone_final_newline :
  Re.re_match Re.phone_pattern
    (String.append "1234567890" (String Re.newline EmptyString)) = true.
Proof. reflexivity. Qed.

(* ================================================================== *)
(** * Further properties of the resolvers                               *)
(* ================================================================== *)

Section Further.

Context {price : Type} `{Numeric price}.
Variable validate_email : string -> bool.

(** ** [CreateCustomer]: which check answers *)

(** X1: the message of [CreateCustomer] names the first check that
    fails, in the order email format, email uniqueness, phone format, and
    the customer is returned exactly when the call succeeds. *)
Theorem CreateCustomer_outcomes (s : Store price) (name email : string)
    (phone : option string) :
  let result :=
    fst (CreateCustomer_mutate validate_email s name email phone) in
  (cc_message result = "Invalid email format"
   <-> validate_email email = false)
  /\ (cc_message result = "Email already exists"
      <-> validate_email email = true
          /\ Customer_email_exists s email = true)
  /\ (cc_message result = "Invalid phone format"
      <-> validate_email email = true
          /\ Customer_email_exists s email = false
          /\ validate_phone phone = false)
  /\ (cc_message result = "Customer created successfully"
      <-> validate_email email = true
          /\ Customer_email_exists s email = false
          /\ validate_phone phone = true)
  /\ (cc_success result = true
      <-> cc_message result = "Customer created successfully")
  /\ (cc_success result = true <-> exists c, cc_customer result = Some c).
Proof.
  cbv zeta. unfold CreateCustomer_mutate. rewrite phone_test_spec.
  destruct (validate_email email), (Customer_email_exists s email),
    (validate_phone phone); cbn;
    repeat split; try discriminate; try reflexivity;
    try (intros [? ?]; discriminate); try (intros [? [? ?]]; discriminate);
    try (intros _; eexists; reflexivity).
Qed.

(** X2: with a valid and fresh email, a non-empty phone is accepted
    exactly when it is an optional [+] and 10 to 15 digits, or
    [NNN-NNN-NNNN], with or without one newline after it; an accepted
    phone is stored as it was given, the newline included. *)
Theorem CreateCustomer_phone_shape (s : Store price) (name email p : string) :
  validate_email email = true ->
  (forall c, In c (customers s) -> customer_email c <> email) ->
  p <> EmptyString ->
  let run := CreateCustomer_mutate validate_email s name email (Some p) in
  (cc_success (fst run) = true
   <-> exists b, Re.phone_body b
                 /\ (p = b
                     \/ p = (b ++ String Re.newline EmptyString)%string))
  /\ (cc_success (fst run) = true ->
      customers (snd run)
      = customers s
          ++ [mkCustomer (Some (next_customer_pk s)) name email p]).
Proof.
  intros Hv Hfresh Hne. cbv zeta.
  pose proof (fresh_email_not_found s email Hfresh) as Hf.
  rewrite (CreateCustomer_fresh validate_email s name email (Some p) Hv Hf).
  pose proof (validate_phone_spec p) as Hspec.
  destruct (validate_phone (Some p)); cbn [fst snd cc_success].
  - split.
    + split; [intros _|reflexivity].
      destruct (proj1 Hspec eq_refl) as [E|Hb]; [now destruct Hne | exact Hb].
    + intros _. destruct p as [|a rest]; [now destruct Hne | reflexivity].
  - split; [|discriminate]. split; [discriminate|].
    intros Hb. apply (proj2 Hspec). now right.
Qed.

(** ** [BulkCreateCustomers] and [CreateCustomer] *)

(** One record, through the loop of [BulkCreateCustomers] and through
    [CreateCustomer], on the same store. *)
Lemma CreateCustomer_record_cases (s : Store price) (c : CustomerInput) :
  let run := CreateCustomer_record validate_email s c in
  (cc_success (fst run) = true
   /\ cc_customer (fst run)
      = Some (mkCustomer (Some (next_customer_pk s)) (input_name c)
                (input_email c) (or_empty (input_phone c)))
   /\ Customer_email_exists s (input_email c) = false
   /\ record_passes validate_email s c = true
   /\ bulk_one validate_email s c = ([candidate c], [])
   /\ snd run = snd (Customer_save s (candidate c)))
  \/ (cc_success (fst run) = false
      /\ cc_customer (fst run) = None
      /\ record_passes validate_email s c = false
      /\ bulk_one validate_email s c
         = ([], [(input_email c ++ ": " ++ cc_message (fst run))%string])
      /\ snd run = s).
Proof.
  cbv zeta.
  unfold CreateCustomer_record, CreateCustomer_mutate, bulk_one, bulk_step,
    record_passes.
  fold (Customer_email_exists s (input_email c)).
  rewrite phone_test_spec.
  destruct (validate_email (input_email c)),
    (Customer_email_exists s (input_email c)),
    (validate_phone (input_phone c)); cbn;
    solve [left; repeat split | right; repeat split].
Qed.

(** X3: [BulkCreateCustomers] answers for each record what
    [CreateCustomer] answers for it on the store before the batch: the
    error list is, in input order, the email and the message of each
    refused record, and the created customers carry, in input order, the
    fields of the customers [CreateCustomer] returns. *)
Theorem BulkCreateCustomers_as_CreateCustomer (s : Store price)
    (records : list CustomerInput) :
  let single c := fst (CreateCustomer_record validate_email s c) in
  let result := fst (BulkCreateCustomers_mutate validate_email s records) in
  errors result
  = map (fun c => (input_email c ++ ": " ++ cc_message (single c))%string)
      (filter (fun c => negb (cc_success (single c))) records)
  /\ map customer_fields (created_customers result)
     = flat_map
         (fun c =>
            match cc_customer (single c) with
            | Some k => [customer_fields k]
            | None => []
            end) records.
Proof.
  cbv zeta. rewrite bulk_created_fields, BulkCreateCustomers_unfold.
  cbn [fst errors].
  induction records as [|c l [IHe IHc]]; [split; reflexivity|].
  rewrite bulk_loop_cons. cbn [fst snd filter flat_map]. rewrite map_app.
  destruct (CreateCustomer_record_cases s c)
    as [(Hs & Hc & _ & _ & Hb & _)|(Hs & Hc & _ & Hb & _)];
    rewrite Hs, Hc, Hb; cbn [fst snd negb map app]; rewrite IHe, IHc;
    split; reflexivity.
Qed.

Lemma Customer_email_exists_saved (s : Store price) (k : Customer)
    (email : string) :
  Customer_email_exists (snd (Customer_save s k)) email
  = Customer_email_exists s email || String.eqb (customer_email k) email.
Proof.
  unfold Customer_email_exists, Customer_save. cbn [snd customers].
  rewrite existsb_app. cbn. now rewrite orb_false_r.
Qed.

Lemma bulk_loop_same_emails (s1 s2 : Store price) (l : list CustomerInput) :
  (forall c, In c l ->
     Customer_email_exists s1 (input_email c)
     = Customer_email_exists s2 (input_email c)) ->
  bulk_loop validate_email s1 l = bulk_loop validate_email s2 l.
Proof.
  induction l as [|c l IH]; intros Hsame; [reflexivity|].
  rewrite !bulk_loop_cons, IH by (intros x Hx; apply Hsame; now right).
  replace (bulk_one validate_email s1 c) with (bulk_one validate_email s2 c);
    [reflexivity|].
  unfold bulk_one, bulk_step. now rewrite (Hsame c (or_introl eq_refl)).
Qed.

Lemma bulk_store_cons_accepted (s : Store price) (k : Customer)
    (l : list Customer) :
  snd (Customer_bulk_create s (k :: l))
  = snd (Customer_bulk_create (snd (Customer_save s k)) l).
Proof.
  unfold Customer_bulk_create, Customer_save.
  cbn [snd customers products orders order_products next_customer_pk
       next_product_pk next_order_pk assign_pks].
  rewrite <- app_assoc. cbn [app List.length]. f_equal. lia.
Qed.

(** X4: on records with pairwise different emails, [BulkCreateCustomers]
    leaves the store that one [CreateCustomer] call per record, in input
    order, leaves. *)
Theorem BulkCreateCustomers_sequential (s : Store price)
    (records : list CustomerInput) :
  NoDup (map input_email records) ->
  snd (BulkCreateCustomers_mutate validate_email s records)
  = create_each validate_email s records.
Proof.
  revert s. induction records as [|c l IH]; intros s Hnd.
  - rewrite BulkCreateCustomers_unfold. apply Customer_bulk_create_nil.
  - cbn [map] in Hnd. inversion Hnd as [|? ? Hc Hl]; subst.
    unfold create_each. cbn [fold_left].
    fold (create_each validate_email
            (snd (CreateCustomer_record validate_email s c)) l).
    rewrite <- (IH _ Hl), !BulkCreateCustomers_unfold. cbn [snd].
    rewrite bulk_loop_cons. cbn [fst].
    destruct (CreateCustomer_record_cases s c)
      as [(_ & _ & _ & _ & Hb & Hst)|(_ & _ & _ & Hb & Hst)];
      rewrite Hb, Hst; cbn [fst app]; [|reflexivity].
    rewrite bulk_store_cons_accepted.
    rewrite (bulk_loop_same_emails (snd (Customer_save s (candidate c))) s l);
      [reflexivity|].
    intros x Hx.
    rewrite Customer_email_exists_saved. cbn [candidate customer_email].
    destruct (String.eqb_spec (input_email c) (input_email x)) as [E|_];
      [|apply orb_false_r].
    destruct Hc. rewrite E. now apply in_map.
Qed.

(** ** Unique emails *)

Lemma email_not_stored (s : Store price) (email : string) :
  Customer_email_exists s email = false
  <-> ~ In email (map customer_email (customers s)).
Proof.
  split.
  - intros Hf Hin. apply in_map_iff in Hin. destruct Hin as [c [E Hc]].
    assert (Customer_email_exists s email = true) as Ht
      by (apply Customer_email_exists_spec; now exists c).
    congruence.
  - intros Hno. destruct (Customer_email_exists s email) eqn:E; [|reflexivity].
    apply Customer_email_exists_spec in E. destruct E as [c [Hc <-]].
    destruct Hno. now apply in_map.
Qed.

(** X5: [CreateCustomer] keeps the emails of the stored customers
    pairwise different. *)
Theorem CreateCustomer_keeps_emails_unique (s : Store price)
    (name email : string) (phone : option string) :
  emails_unique s ->
  emails_unique (snd (CreateCustomer_mutate validate_email s name email phone)).
Proof.
  unfold emails_unique. intros Hu.
  destruct (CreateCustomer_record_cases s (mkCustomerInput name email phone))
    as [(_ & _ & Hf & _ & _ & Hst)|(_ & _ & _ & _ & Hst)];
    unfold CreateCustomer_record in Hst; cbn [input_name input_email
      input_phone] in Hst; rewrite Hst; [|exact Hu].
  cbn. rewrite map_app. cbn. apply NoDup_app; auto.
  - constructor; [intros [] | constructor].
  - intros e He [<-|[]]. cbn [input_email] in Hf.
    now apply email_not_stored in Hf.
Qed.

Lemma assign_pks_emails (next : Z) (objs : list Customer) :
  map customer_email (assign_pks next objs) = map customer_email objs.
Proof.
  revert next. induction objs as [|c objs IH]; intros next; simpl;
    [reflexivity | now rewrite IH].
Qed.

(** X6: [BulkCreateCustomers] keeps the stored emails pairwise different
    exactly when the accepted records of the batch have pairwise
    different emails: records of one batch are not checked against each
    other. *)
Theorem BulkCreateCustomers_emails_unique_iff (s : Store price)
    (records : list CustomerInput) :
  emails_unique s ->
  (emails_unique (snd (BulkCreateCustomers_mutate validate_email s records))
   <-> NoDup (map input_email
                (filter (record_passes validate_email s) records))).
Proof.
  unfold emails_unique. intros Hu.
  rewrite BulkCreateCustomers_unfold, bulk_loop_created.
  cbn [snd Customer_bulk_create customers].
  rewrite map_app, assign_pks_emails, map_map. cbn [candidate customer_email].
  split.
  - apply NoDup_app_remove_l.
  - intros Hnd. apply NoDup_app; auto.
    intros e He Hin. apply in_map_iff in Hin. destruct Hin as [c [<- Hc]].
    apply filter_In in Hc. destruct Hc as [_ Hp].
    unfold record_passes in Hp.
    apply andb_true_iff in Hp. destruct Hp as [Hp _].
    apply andb_true_iff in Hp. destruct Hp as [_ Hf].
    apply negb_true_iff in Hf.
    fold (Customer_email_exists s (input_email c)) in Hf.
    now apply email_not_stored in Hf.
Qed.

(** ** [CreateOrder]: when it succeeds, and what the order refers to *)

Lemma NoDup_map_Some (ids : list Z) : NoDup ids -> NoDup (map Some ids).
Proof.
  induction 1 as [|i ids Hi Hnd IH]; cbn; constructor; [|exact IH].
  intros Hin. apply in_map_iff in Hin. destruct Hin as [j [E Hj]].
  inversion E; subst. now destruct Hi.
Qed.

Lemma resolved_In (s : Store price) (ids : list Z) (p : Product price) :
  In p (Product_filter_id_in s ids)
  <-> In p (products s) /\ exists i, In i ids /\ product_pk p = Some i.
Proof.
  unfold Product_filter_id_in. rewrite filter_In, pk_in_spec. reflexivity.
Qed.

(** On a well-formed store every key of the request resolves exactly
    when as many products resolve as keys are listed, the keys being
    pairwise different. *)
Lemma resolved_all (s : Store price) (ids : list Z) :
  store_wf s ->
  (List.length (Product_filter_id_in s ids) = List.length ids
   <-> NoDup ids
       /\ forall i, In i ids ->
            exists p, In p (products s) /\ product_pk p = Some i).
Proof.
  intros Hwf.
  pose proof (resolved_keys_NoDup s ids Hwf) as Hnd.
  pose proof (resolved_keys_incl s ids) as Hincl.
  destruct (resolved_count s ids Hwf) as [Hle Heq].
  split.
  - intros Hlen. split; [now apply Heq|]. intros i Hi.
    assert (In (Some i) (map product_pk (Product_filter_id_in s ids))) as Hin.
    { apply (@NoDup_length_incl _ _ (map Some ids) Hnd);
        [|exact Hincl|now apply in_map].
      rewrite !length_map. lia. }
    apply in_map_iff in Hin. destruct Hin as [p [Hp Hin]].
    exists p. split; [|exact Hp]. now apply resolved_In in Hin.
  - intros [Hids Hall]. apply Nat.le_antisymm; [exact Hle|].
    rewrite <- (length_map Some ids),
      <- (length_map product_pk (Product_filter_id_in s ids)).
    apply NoDup_incl_length; [now apply NoDup_map_Some|].
    intros k Hk. apply in_map_iff in Hk. destruct Hk as [i [<- Hi]].
    destruct (Hall i Hi) as [p [Hp Hpk]]. rewrite <- Hpk. apply in_map.
    apply resolved_In. split; [exact Hp|]. now exists i.
Qed.

(** X7: on a well-formed store [CreateOrder] succeeds exactly when a
    customer has the key [customer_id], [product_ids] is not empty and
    lists no key twice, and every key of [product_ids] is the key of a
    stored product. *)
Theorem CreateOrder_succeeds_iff (s : Store price) (customer_id : Z)
    (product_ids : list Z) (order_date : option Z) (now : Z) :
  store_wf s ->
  (co_success
     (fst (CreateOrder_mutate s customer_id product_ids order_date now))
   = true
   <-> (exists c, In c (customers s) /\ customer_pk c = Some customer_id)
       /\ product_ids <> []
       /\ NoDup product_ids
       /\ forall i, In i product_ids ->
            exists p, In p (products s) /\ product_pk p = Some i).
Proof.
  intros Hwf. split.
  - intros Hok.
    destruct (CreateOrder_success s customer_id product_ids order_date now Hok)
      as (c & Hget & Hne & Hlen & _).
    apply (resolved_all s product_ids Hwf) in Hlen. destruct Hlen as [Hnd Hall].
    unfold Customer_get in Hget. apply find_some in Hget.
    destruct Hget as [Hin Hpk]. apply same_pk_eq in Hpk.
    split; [now exists c|]. auto.
  - intros (Hc & Hne & Hnd & Hall).
    destruct (Customer_get_some s customer_id Hc) as [c Hget].
    assert (List.length (Product_filter_id_in s product_ids)
            = List.length product_ids) as Hlen
      by (apply (resolved_all s product_ids Hwf); auto).
    unfold CreateOrder_mutate. rewrite Hget.
    destruct product_ids as [|i ids]; [now destruct Hne|].
    cbv zeta. apply Nat.eqb_eq in Hlen. now rewrite Hlen.
Qed.

(** X8: the order a successful [CreateOrder] returns refers to stored
    rows only: its customer is the stored customer with the key
    [customer_id], each of its products is a stored product whose key is
    listed in [product_ids], its date is the date given, or the clock's
    time when none is given, and its key is the next key of the table of
    orders. *)
Theorem CreateOrder_references (s : Store price) (customer_id : Z)
    (product_ids : list Z) (date : option Z) (now : Z) :
  co_success (fst (CreateOrder_mutate s customer_id product_ids date now))
  = true ->
  let run := CreateOrder_mutate s customer_id product_ids date now in
  exists order,
    co_order (fst run) = Some order
    /\ In (order_customer order) (customers s)
    /\ customer_pk (order_customer order) = Some customer_id
    /\ (forall p, In p (Order_products (snd run) order) ->
          In p (products s)
          /\ exists i, In i product_ids /\ product_pk p = Some i)
    /\ (forall t, date = Some t -> order_date order = t)
    /\ (date = None -> order_date order = now)
    /\ order_pk order = Some (next_order_pk s).
Proof.
  intros Hok. cbv zeta.
  destruct (CreateOrder_success s customer_id product_ids date now Hok)
    as (c & Hget & _ & _ & Hrun).
  cbv zeta in Hrun. rewrite Hrun. cbn [fst snd co_order].
  eexists. split; [reflexivity|].
  cbn [order_customer order_date order_pk].
  unfold Customer_get in Hget. apply find_some in Hget.
  destruct Hget as [Hin Hpk]. apply same_pk_eq in Hpk.
  split; [exact Hin|]. split; [exact Hpk|]. split; [|split; [|split]].
  - intros p Hp.
    pose proof (Order_products_resolved
                  (snd (Order_create s c (or_else date now)
                          (sum (map product_price
                                  (Product_filter_id_in s product_ids)))))
                  (mkOrder (Some (next_order_pk s)) c (or_else date now)
                     (sum (map product_price
                             (Product_filter_id_in s product_ids))))
                  product_ids (next_order_pk s) eq_refl) as Hset.
    apply (resolved_In s product_ids p).
    exact (eq_ind _ (fun l => In p l) Hp _ Hset).
  - intros t ->. reflexivity.
  - intros ->. reflexivity.
  - reflexivity.
Qed.

(** ** What the resolvers leave in place *)

Lemma CreateProduct_cases (s : Store price) (name : string) (p : price)
    (stock : Z) :
  let run := CreateProduct_mutate s name p stock in
  (cp_success (fst run) = true
   /\ num_le_zero p = false /\ (0 <= stock)%Z
   /\ cp_product (fst run)
      = Some (mkProduct (Some (next_product_pk s)) name p stock)
   /\ snd run = snd (Product_save s (mkProduct None name p stock)))
  \/ (cp_success (fst run) = false /\ snd run = s).
Proof.
  cbv zeta. unfold CreateProduct_mutate.
  destruct (num_le_zero p); [now right|].
  destruct (stock <? 0)%Z eqn:E; [now right|].
  left. apply Z.ltb_ge in E. repeat split. exact E.
Qed.

Lemma CreateOrder_cases (s : Store price) (customer_id : Z)
    (product_ids : list Z) (date : option Z) (now : Z) :
  let run := CreateOrder_mutate s customer_id product_ids date now in
  co_success (fst run) = true
  \/ (co_success (fst run) = false /\ snd run = s).
Proof.
  cbv zeta. unfold CreateOrder_mutate.
  destruct (Customer_get s customer_id); [|now right].
  destruct product_ids as [|i ids]; [now right|].
  cbv zeta. destruct (negb _); [now right | now left].
Qed.

Lemma extends_refl (s : Store price) : extends s s.
Proof.
  unfold extends.
  repeat split; try (exists []; now rewrite app_nil_r); apply Z.le_refl.
Qed.

(** X9: no resolver removes or changes a stored customer, product or
    order: after every call each table is the table before the call with
    the new rows appended, and no key counter goes back. *)
Theorem resolvers_only_append :
  (forall (s : Store price) name email phone,
     extends s (snd (CreateCustomer_mutate validate_email s name email phone)))
  /\ (forall (s : Store price) records,
        extends s (snd (BulkCreateCustomers_mutate validate_email s records)))
  /\ (forall (s : Store price) name p stock,
        extends s (snd (CreateProduct_mutate s name p stock)))
  /\ (forall (s : Store price) customer_id product_ids date now,
        extends s
          (snd (CreateOrder_mutate s customer_id product_ids date now))).
Proof.
  split; [|split; [|split]].
  - intros s name email phone.
    destruct (CreateCustomer_record_cases s (mkCustomerInput name email phone))
      as [(_ & _ & _ & _ & _ & Hst)|(_ & _ & _ & _ & Hst)];
      unfold CreateCustomer_record in Hst;
      cbn [input_name input_email input_phone] in Hst; rewrite Hst;
      [|apply extends_refl].
    unfold extends, Customer_save. cbn.
    repeat split; try (exists []; now rewrite app_nil_r); try lia.
    now eexists.
  - intros s records. rewrite BulkCreateCustomers_unfold.
    unfold extends, Customer_bulk_create. cbn.
    repeat split; try (exists []; now rewrite app_nil_r); try lia.
    now eexists.
  - intros s name p stock.
    destruct (CreateProduct_cases s name p stock)
      as [(_ & _ & _ & _ & Hst)|(_ & Hst)]; cbv zeta in Hst; rewrite Hst;
      [|apply extends_refl].
    unfold extends, Product_save. cbn.
    repeat split; try (exists []; now rewrite app_nil_r); try lia.
    now eexists.
  - intros s customer_id product_ids date now.
    destruct (CreateOrder_cases s customer_id product_ids date now)
      as [Hok|(_ & Hst)]; cbv zeta in *; [|rewrite Hst; apply extends_refl].
    destruct (CreateOrder_success s customer_id product_ids date now Hok)
      as (c & _ & _ & _ & Hrun).
    cbv zeta in Hrun. rewrite Hrun.
    unfold extends, Order_products_set, Order_create. cbn.
    repeat split; try (exists []; now rewrite app_nil_r); try lia.
    now eexists.
Qed.

(** ** Only checked data is stored *)

Lemma candidate_valid (s : Store price) (c : CustomerInput) :
  record_passes validate_email s c = true ->
  customer_valid validate_email (candidate c) = true.
Proof.
  unfold record_passes, customer_valid. cbn [candidate customer_email
    customer_phone]. intros Hp.
  apply andb_true_iff in Hp. destruct Hp as [Hp Hphone].
  apply andb_true_iff in Hp. destruct Hp as [Hv _]. rewrite Hv. cbn.
  destruct (input_phone c) as [[|a rest]|]; try reflexivity.
  cbn [or_empty]. rewrite ReFacts.phone_pattern_split. exact Hphone.
Qed.

Lemma assign_pks_valid (next : Z) (objs : list Customer) :
  forallb (customer_valid validate_email) (assign_pks next objs)
  = forallb (customer_valid validate_email) objs.
Proof.
  revert next. induction objs as [|c objs IH]; intros next; cbn;
    [reflexivity | now rewrite IH].
Qed.

(** X10: the resolvers store checked data only.  If every stored
    customer has an email the validator accepts and a phone that is
    empty or matches the phone pattern, and every stored product has a
    price that is not [<= 0] and a stock that is not [< 0], then the same
    holds after every call of the four resolvers; the empty store is
    such a store. *)
Theorem resolvers_keep_store_valid :
  store_valid validate_email (@empty_store price)
  /\ (forall (s : Store price) name email phone,
        store_valid validate_email s ->
        store_valid validate_email
          (snd (CreateCustomer_mutate validate_email s name email phone)))
  /\ (forall (s : Store price) records,
        store_valid validate_email s ->
        store_valid validate_email
          (snd (BulkCreateCustomers_mutate validate_email s records)))
  /\ (forall (s : Store price) name p stock,
        store_valid validate_email s ->
        store_valid validate_email (snd (CreateProduct_mutate s name p stock)))
  /\ (forall (s : Store price) customer_id product_ids date now,
        store_valid validate_email s ->
        store_valid validate_email
          (snd (CreateOrder_mutate s customer_id product_ids date now))).
Proof.
  split; [split; reflexivity|]. split; [|split; [|split]].
  - intros s name email phone [Hc Hp].
    destruct (CreateCustomer_record_cases s (mkCustomerInput name email phone))
      as [(_ & _ & _ & Hpass & _ & Hst)|(_ & _ & _ & _ & Hst)];
      unfold CreateCustomer_record in Hst;
      cbn [input_name input_email input_phone] in Hst; rewrite Hst;
      [|now split].
    split; [|exact Hp]. cbn. rewrite forallb_app, Hc. cbn.
    rewrite andb_true_r. exact (candidate_valid s _ Hpass).
  - intros s records [Hc Hp]. rewrite BulkCreateCustomers_unfold.
    split; [|exact Hp]. cbn.
    rewrite forallb_app, Hc, assign_pks_valid, bulk_loop_created. cbn.
    apply forallb_forall. intros k Hk. apply in_map_iff in Hk.
    destruct Hk as [c [<- Hc']]. apply filter_In in Hc'.
    now apply (candidate_valid s).
  - intros s name p stock [Hc Hp].
    destruct (CreateProduct_cases s name p stock)
      as [(_ & Hprice & Hstock & _ & Hst)|(_ & Hst)];
      cbv zeta in Hst; rewrite Hst; [|now split].
    split; [exact Hc|]. cbn. rewrite forallb_app, Hp. cbn.
    unfold product_valid. cbn. rewrite Hprice. cbn.
    rewrite andb_true_r. now apply Z.leb_le.
  - intros s customer_id product_ids date now [Hc Hp].
    destruct (CreateOrder_cases s customer_id product_ids date now)
      as [Hok|(_ & Hst)]; cbv zeta in *; [|rewrite Hst; now split].
    destruct (CreateOrder_success s customer_id product_ids date now Hok)
      as (c & _ & _ & _ & Hrun).
    cbv zeta in Hrun. rewrite Hrun. split; [exact Hc | exact Hp].
Qed.

(** ** Orders stay consistent with their products *)

Lemma stored_pk_below (next : Z) (ks : list (option Z)) (k : option Z) :
  table_ok next ks = true -> In k ks ->
  exists i, k = Some i /\ (i < next)%Z.
Proof.
  intros Hok Hin. apply table_ok_spec in Hok. destruct Hok as [_ Hall].
  rewrite Forall_forall in Hall. now apply Hall.
Qed.

Lemma no_link_to (links : list (Z * Z)) (f : Z * Z -> bool) (l : Z * Z) :
  forallb f links = true -> f l = false ->
  existsb (link_eqb l) links = false.
Proof.
  intros Hall Hl. destruct (existsb (link_eqb l) links) eqn:E; [|reflexivity].
  apply existsb_exists in E. destruct E as [l' [Hin E]].
  apply link_eqb_eq in E. subst l'.
  rewrite forallb_forall in Hall. rewrite (Hall l Hin) in Hl. discriminate Hl.
Qed.

(** [order.products.set] on one order leaves the links of the other
    orders as they are. *)
Lemma links_other_order (s : Store price) (order : Order price)
    (objs : list (Product price)) (o k i : Z) :
  order_pk order = Some o -> k <> o ->
  existsb (link_eqb (k, i))
    (order_products (Order_products_set s order objs))
  = existsb (link_eqb (k, i)) (order_products s).
Proof.
  intros Ho Hk. unfold Order_products_set. rewrite Ho. cbn [order_products].
  apply eq_true_iff_eq.
  rewrite existsb_app, orb_true_iff, !existsb_exists. split.
  - intros [[l [Hl E]]|[l [Hl E]]].
    + apply filter_In in Hl. exists l. now split.
    + apply link_eqb_eq in E. subst l. apply in_flat_map in Hl.
      destruct Hl as [p [_ Hl]].
      destruct (product_pk p) as [j|]; [|now destruct Hl].
      destruct (existsb (link_eqb (o, j)) (order_products s));
        [now destruct Hl|].
      destruct Hl as [E|[]]. inversion E. congruence.
  - intros [l [Hl E]]. left. exists l. split; [|exact E].
    apply link_eqb_eq in E. subst l. apply filter_In. split; [exact Hl|].
    cbn [fst]. apply orb_true_iff. left. apply negb_true_iff.
    now apply Z.eqb_neq.
Qed.

Lemma consistent_same_catalog (s s' : Store price) :
  products s' = products s -> orders s' = orders s ->
  order_products s' = order_products s ->
  next_product_pk s' = next_product_pk s ->
  next_order_pk s' = next_order_pk s ->
  store_wf s' -> store_consistent s -> store_consistent s'.
Proof.
  intros Ep Eo El Enp Eno Hwf (_ & Hl & Ht).
  split; [exact Hwf|]. split.
  - unfold link_ok. now rewrite El, Enp, Eno.
  - rewrite Eo. eapply Forall_impl; [|exact Ht].
    intros o. unfold order_total_ok, Order_products. now rewrite El, Ep.
Qed.

Lemma link_ok_later (s s' : Store price) (links : list (Z * Z)) :
  (next_product_pk s <= next_product_pk s')%Z ->
  (next_order_pk s <= next_order_pk s')%Z ->
  forallb (link_ok s) links = true -> forallb (link_ok s') links = true.
Proof.
  intros Hp Ho. rewrite !forallb_forall. intros Hall l Hl.
  specialize (Hall l Hl). unfold link_ok in *.
  apply andb_true_iff in Hall. destruct Hall as [H1 H2].
  apply Z.ltb_lt in H1, H2. apply andb_true_iff.
  split; apply Z.ltb_lt; lia.
Qed.

Lemma Order_products_after_save (s : Store price) (p : Product price)
    (o : Order price) :
  forallb (link_ok s) (order_products s) = true ->
  Order_products (snd (Product_save s p)) o = Order_products s o.
Proof.
  intros Hl. unfold Order_products.
  cbn [snd Product_save products order_products].
  destruct (order_pk o) as [k|]; [|reflexivity].
  rewrite filter_app. cbn [filter product_pk].
  rewrite (no_link_to (order_products s) (link_ok s)); trivial.
  - now rewrite app_nil_r.
  - unfold link_ok. cbn [snd]. rewrite Z.ltb_irrefl. apply andb_false_r.
Qed.

Lemma Order_products_after_set (s : Store price) (order o : Order price)
    (objs : list (Product price)) (k : Z) :
  order_pk order = Some k -> order_pk o <> Some k ->
  Order_products (Order_products_set s order objs) o = Order_products s o.
Proof.
  intros Hk Ho. unfold Order_products.
  replace (products (Order_products_set s order objs)) with (products s)
    by (unfold Order_products_set; now rewrite Hk).
  destruct (order_pk o) as [j|]; [|reflexivity].
  apply filter_ext. intros p. destruct (product_pk p) as [i|]; trivial.
  apply (links_other_order s order objs k j i Hk). congruence.
Qed.

Lemma stored_order_key (s : Store price) (o : Order price) :
  store_wf s -> In o (orders s) -> order_pk o <> Some (next_order_pk s).
Proof.
  intros (_ & _ & Hot) Ho E.
  destruct (stored_pk_below _ _ (order_pk o) Hot (in_map _ _ _ Ho))
    as [k [Ek Hk]].
  rewrite E in Ek. inversion Ek. lia.
Qed.

(** X11: an order that is stored keeps its products.  On a store with
    well-formed tables and links to handed-out keys only, the products
    of every stored order are the same after a [CreateProduct] and after
    a [CreateOrder] as before it. *)
Theorem stored_orders_keep_products (s : Store price) (o : Order price) :
  store_wf s -> forallb (link_ok s) (order_products s) = true ->
  In o (orders s) ->
  (forall name p stock,
     Order_products (snd (CreateProduct_mutate s name p stock)) o
     = Order_products s o)
  /\ (forall customer_id product_ids date now,
        Order_products
          (snd (CreateOrder_mutate s customer_id product_ids date now)) o
        = Order_products s o).
Proof.
  intros Hwf Hl Ho. split.
  - intros name p stock.
    destruct (CreateProduct_cases s name p stock)
      as [(_ & _ & _ & _ & Hst)|(_ & Hst)]; cbv zeta in Hst; rewrite Hst;
      [|reflexivity].
    now apply Order_products_after_save.
  - intros customer_id product_ids date now.
    destruct (CreateOrder_cases s customer_id product_ids date now)
      as [Hok|(_ & Hst)]; cbv zeta in *; [|now rewrite Hst].
    destruct (CreateOrder_success s customer_id product_ids date now Hok)
      as (c & _ & _ & _ & Hrun).
    cbv zeta in Hrun. rewrite Hrun. cbn [snd].
    rewrite (Order_products_after_set _ _ o _ (next_order_pk s));
      [reflexivity | reflexivity | now apply stored_order_key].
Qed.

(** X12: the totals of the stored orders stay right.  On a store with
    well-formed tables, links to handed-out keys only, and every order
    carrying the sum of the prices of its products, each of the four
    resolvers leaves such a store; the empty store is one.  In
    particular a later [CreateProduct] or [CreateOrder] changes neither
    the products nor the total of an order that is already stored. *)
Theorem resolvers_keep_store_consistent :
  store_consistent (@empty_store price)
  /\ (forall (s : Store price) name email phone,
        store_consistent s ->
        store_consistent
          (snd (CreateCustomer_mutate validate_email s name email phone)))
  /\ (forall (s : Store price) records,
        store_consistent s ->
        store_consistent
          (snd (BulkCreateCustomers_mutate validate_email s records)))
  /\ (forall (s : Store price) name p stock,
        store_consistent s ->
        store_consistent (snd (CreateProduct_mutate s name p stock)))
  /\ (forall (s : Store price) customer_id product_ids date now,
        store_consistent s ->
        store_consistent
          (snd (CreateOrder_mutate s customer_id product_ids date now))).
Proof.
  split; [|split; [|split; [|split]]].
  - split; [apply store_wf_empty|]. split; [reflexivity|constructor].
  - intros s name email phone Hs.
    apply (consistent_same_catalog s); try exact Hs;
      try (unfold CreateCustomer_mutate;
           destruct (validate_email email); [|reflexivity];
           destruct (Customer_email_exists s email); [reflexivity|];
           destruct (truthy phone && _); reflexivity).
    apply CreateCustomer_wf. apply Hs.
  - intros s records Hs.
    apply (consistent_same_catalog s); try exact Hs;
      try (rewrite BulkCreateCustomers_unfold; reflexivity).
    apply BulkCreateCustomers_wf. apply Hs.
  - intros s name p stock Hs.
    pose proof (CreateProduct_wf s name p stock (proj1 Hs)) as Hwf.
    destruct (CreateProduct_cases s name p stock)
      as [(_ & _ & _ & _ & Hst)|(_ & Hst)]; cbv zeta in Hst;
      rewrite Hst in *; [|exact Hs].
    destruct Hs as (_ & Hl & Ht). split; [exact Hwf|]. split.
    + apply (link_ok_later s); cbn; try lia. exact Hl.
    + change (orders (snd (Product_save s (mkProduct None name p stock))))
        with (orders s).
      eapply Forall_impl; [|exact Ht].
      intros o. unfold order_total_ok.
      now rewrite Order_products_after_save.
  - intros s customer_id product_ids date now Hs.
    pose proof (CreateOrder_wf s customer_id product_ids date now (proj1 Hs))
      as Hwf.
    destruct (CreateOrder_cases s customer_id product_ids date now)
      as [Hok|(_ & Hst)]; cbv zeta in *; [|rewrite Hst; exact Hs].
    destruct (CreateOrder_total_and_products s customer_id product_ids date
                now Hok) as (order & Hord & Htot & Hprods & Horders).
    destruct (CreateOrder_success s customer_id product_ids date now Hok)
      as (c & _ & _ & _ & Hrun).
    cbv zeta in Hrun, Htot, Hprods, Horders.
    rewrite Hrun in Hord. cbn [fst co_order] in Hord.
    injection Hord as Hord.
    destruct Hs as (Hwf0 & Hl & Ht).
    split; [exact Hwf|]. split.
    + rewrite Hrun. cbn [snd]. unfold Order_products_set.
      cbn [order_pk Order_create snd order_products customers products orders
           next_customer_pk next_product_pk next_order_pk].
      rewrite forallb_app. apply andb_true_iff. split.
      * apply forallb_forall. intros l Hin. apply filter_In in Hin.
        destruct Hin as [Hin _]. rewrite forallb_forall in Hl.
        specialize (Hl l Hin). unfold link_ok in *. cbn.
        apply andb_true_iff in Hl. destruct Hl as [H1 H2].
        apply Z.ltb_lt in H1. rewrite H2, andb_true_r. apply Z.ltb_lt. lia.
      * apply forallb_forall. intros l Hin. apply in_flat_map in Hin.
        destruct Hin as [p [Hp Hin]].
        destruct (product_pk p) as [i|] eqn:Ep; [|now destruct Hin].
        destruct (existsb (link_eqb (next_order_pk s, i)) (order_products s));
          [now destruct Hin|].
        destruct Hin as [<-|[]]. unfold link_ok. cbn.
        apply andb_true_iff. split; apply Z.ltb_lt; [lia|].
        apply resolved_In in Hp. destruct Hp as [Hp _].
        destruct Hwf0 as (_ & Hpt & _).
        destruct (stored_pk_below _ _ (product_pk p) Hpt (in_map _ _ _ Hp))
          as [j [E Hj]].
        rewrite Ep in E. inversion E. now subst.
    + rewrite Horders. apply Forall_app. split.
      * rewrite Forall_forall in *. intros o Ho.
        specialize (Ht o Ho). unfold order_total_ok in *. rewrite Ht.
        do 2 f_equal. rewrite Hrun. cbn [snd]. symmetry.
        rewrite (Order_products_after_set _ _ o _ (next_order_pk s));
          [reflexivity | reflexivity | now apply stored_order_key].
      * constructor; [|constructor]. unfold order_total_ok.
        now rewrite Hprods, Htot.
Qed.

(** ** Created rows can be fetched by their keys *)

(** On a table with pairwise different keys, a lookup by key returns the
    row that has the key. *)
Lemma find_by_unique_key (rows : list Customer) (k : Customer) (i : Z) :
  NoDup (map customer_pk rows) -> In k rows -> customer_pk k = Some i ->
  find (fun c => same_pk (customer_pk c) i) rows = Some k.
Proof.
  induction rows as [|c rows IH]; intros Hnd Hin Hk; [now destruct Hin|].
  cbn [map] in Hnd. inversion Hnd as [|? ? Hc Hrest]; subst. cbn [find].
  destruct (same_pk (customer_pk c) i) eqn:E.
  - apply same_pk_eq in E. destruct Hin as [->|Hin]; [reflexivity|].
    destruct Hc. rewrite E, <- Hk. now apply in_map.
  - destruct Hin as [->|Hin]; [|now apply IH].
    apply same_pk_eq in Hk. congruence.
Qed.

Lemma Customer_get_stored (s : Store price) (k : Customer) (i : Z) :
  store_wf s -> In k (customers s) -> customer_pk k = Some i ->
  Customer_get s i = Some k.
Proof.
  intros (Hc & _ & _) Hin Hk. apply table_ok_spec in Hc.
  destruct Hc as [Hnd _]. now apply find_by_unique_key.
Qed.

Lemma Customer_get_new_key (s : Store price) (i : Z) :
  store_wf s -> (next_customer_pk s <= i)%Z -> Customer_get s i = None.
Proof.
  intros (Hc & _ & _) Hi. apply Customer_get_none. intros c Hin Hpk.
  destruct (stored_pk_below _ _ (customer_pk c) Hc (in_map _ _ _ Hin))
    as [j [E Hj]].
  rewrite Hpk in E. inversion E. lia.
Qed.

(** X13: on a well-formed store, a customer that [CreateCustomer] or
    [BulkCreateCustomers] returns has a key under which no customer was
    stored before the call, and [Customer.objects.get] finds exactly
    this customer under that key after the call. *)
Theorem created_customers_can_be_fetched (s : Store price) :
  store_wf s ->
  (forall name email phone k,
     let run := CreateCustomer_mutate validate_email s name email phone in
     cc_customer (fst run) = Some k ->
     exists i, customer_pk k = Some i
               /\ Customer_get s i = None
               /\ Customer_get (snd run) i = Some k)
  /\ (forall records k,
        let run := BulkCreateCustomers_mutate validate_email s records in
        In k (created_customers (fst run)) ->
        exists i, customer_pk k = Some i
                  /\ Customer_get s i = None
                  /\ Customer_get (snd run) i = Some k).
Proof.
  intros Hwf. split.
  - intros name email phone k. cbv zeta. intros Hk.
    pose proof (CreateCustomer_wf validate_email s name email phone Hwf)
      as Hwf'.
    destruct (CreateCustomer_record_cases s (mkCustomerInput name email phone))
      as [(_ & Hc & _ & _ & _ & Hst)|(_ & Hc & _)];
      unfold CreateCustomer_record in *;
      cbn [input_name input_email input_phone] in *;
      rewrite Hc in Hk; [|discriminate Hk].
    injection Hk as <-. exists (next_customer_pk s).
    split; [reflexivity|].
    split; [apply Customer_get_new_key; [exact Hwf | lia]|].
    apply Customer_get_stored; [exact Hwf'| |reflexivity].
    rewrite Hst. cbn. apply in_or_app. right. now left.
  - intros records k. cbv zeta. intros Hk.
    pose proof (BulkCreateCustomers_wf validate_email s records Hwf) as Hwf'.
    rewrite BulkCreateCustomers_unfold in Hk, Hwf' |- *.
    cbn [fst snd created_customers] in *.
    destruct (assign_pks_keys (fst (bulk_loop validate_email s records))
                (next_customer_pk s)) as [_ Hkeys].
    rewrite Forall_forall in Hkeys.
    destruct (Hkeys (customer_pk k) (in_map _ _ _ Hk)) as [i [Ei Hi]].
    exists i. split; [exact Ei|].
    split; [apply Customer_get_new_key; [exact Hwf | lia]|].
    apply Customer_get_stored; [exact Hwf'| |exact Ei].
    cbn. apply in_or_app. now right.
Qed.

(** ** From an empty cart to an order *)

Lemma CreateProduct_ok (s : Store price) (name : string) (p : price)
    (stock : Z) :
  num_le_zero p = false -> (0 <= stock)%Z ->
  CreateProduct_mutate s name p stock
  = (mkCreateProduct
       (Some (mkProduct (Some (next_product_pk s)) name p stock)) true
       "Product created successfully",
     snd (Product_save s (mkProduct None name p stock))).
Proof.
  intros Hp Hs. unfold CreateProduct_mutate. rewrite Hp.
  apply Z.ltb_ge in Hs. now rewrite Hs.
Qed.

Lemma old_products_not_resolved (s : Store price) (ids : list Z) :
  store_wf s ->
  (forall i, In i ids -> (next_product_pk s <= i)%Z) ->
  Product_filter_id_in s ids = [].
Proof.
  intros (_ & Hp & _) Hids.
  destruct (Product_filter_id_in s ids) as [|p l] eqn:E; [reflexivity|].
  assert (In p (Product_filter_id_in s ids)) as Hin by (rewrite E; now left).
  apply resolved_In in Hin. destruct Hin as [Hin [i [Hi Hpk]]].
  destruct (stored_pk_below _ _ (product_pk p) Hp (in_map _ _ _ Hin))
    as [j [Ej Hj]].
  rewrite Hpk in Ej. inversion Ej. specialize (Hids i Hi). lia.
Qed.

(** X14: the resolvers compose.  On a well-formed store, create a
    customer from a record that passes the three checks, then two
    products with prices that are not [<= 0] and stocks that are not
    [< 0], then an order for the returned customer key over the two
    returned product keys: the order is created for that customer, its
    total is [(0 + price1) + price2], and its products are the two
    products, in this order. *)
Theorem customer_products_order (s : Store price)
    (name email : string) (phone : option string)
    (name1 : string) (price1 : price) (stock1 : Z)
    (name2 : string) (price2 : price) (stock2 : Z)
    (date : option Z) (now : Z) :
  store_wf s ->
  record_passes validate_email s (mkCustomerInput name email phone) = true ->
  num_le_zero price1 = false -> (0 <= stock1)%Z ->
  num_le_zero price2 = false -> (0 <= stock2)%Z ->
  let r1 := CreateCustomer_mutate validate_email s name email phone in
  let r2 := CreateProduct_mutate (snd r1) name1 price1 stock1 in
  let r3 := CreateProduct_mutate (snd r2) name2 price2 stock2 in
  exists C P1 P2 c i1 i2,
    cc_customer (fst r1) = Some C /\ customer_pk C = Some c
    /\ cp_product (fst r2) = Some P1 /\ product_pk P1 = Some i1
    /\ cp_product (fst r3) = Some P2 /\ product_pk P2 = Some i2
    /\ product_price P1 = price1 /\ product_price P2 = price2
    /\ let r4 := CreateOrder_mutate (snd r3) c [i1; i2] date now in
       exists order,
         fst r4
         = mkCreateOrder (Some order) true "Order created successfully"
         /\ order_customer order = C
         /\ order_total_amount order
            = num_add (num_add num_zero price1) price2
         /\ Order_products (snd r4) order = [P1; P2].
Proof.
  intros Hwf Hpass Hp1 Hs1 Hp2 Hs2. cbv zeta.
  pose proof (CreateCustomer_wf validate_email s name email phone Hwf) as Hwf1.
  destruct (CreateCustomer_record_cases s (mkCustomerInput name email phone))
    as [(_ & Hc & _ & _ & _ & Hst)|(_ & _ & Hno & _)];
    [|congruence].
  unfold CreateCustomer_record in Hc, Hst.
  cbn [input_name input_email input_phone] in Hc, Hst.
  set (s1 := snd (CreateCustomer_mutate validate_email s name email phone))
    in *.
  pose proof (CreateProduct_wf s1 name1 price1 stock1 Hwf1) as Hwf2.
  rewrite (CreateProduct_ok s1 name1 price1 stock1 Hp1 Hs1) in Hwf2 |- *.
  cbn [fst snd] in Hwf2 |- *.
  set (s2 := snd (Product_save s1 (mkProduct None name1 price1 stock1))) in *.
  pose proof (CreateProduct_wf s2 name2 price2 stock2 Hwf2) as Hwf3.
  rewrite (CreateProduct_ok s2 name2 price2 stock2 Hp2 Hs2) in Hwf3 |- *.
  cbn [fst snd] in Hwf3 |- *.
  set (s3 := snd (Product_save s2 (mkProduct None name2 price2 stock2))) in *.
  set (C := mkCustomer (Some (next_customer_pk s)) name email
              (or_empty phone)) in *.
  set (P1 := mkProduct (Some (next_product_pk s1)) name1 price1 stock1).
  set (P2 := mkProduct (Some (next_product_pk s2)) name2 price2 stock2).
  exists C, P1, P2, (next_customer_pk s), (next_product_pk s1),
    (next_product_pk s2).
  repeat (split; [first [exact Hc | reflexivity]|]).
  assert (Hget : Customer_get s3 (next_customer_pk s) = Some C).
  { apply Customer_get_stored; [exact Hwf3| |reflexivity].
    change (customers s3) with (customers s1). rewrite Hst. cbn.
    apply in_or_app. right. now left. }
  assert (Hres : Product_filter_id_in s3
                   [next_product_pk s1; next_product_pk s2] = [P1; P2]).
  { unfold Product_filter_id_in.
    change (products s3) with ((products s1 ++ [P1]) ++ [P2]).
    rewrite !filter_app.
    change (filter _ (products s1))
      with (Product_filter_id_in s1 [next_product_pk s1; next_product_pk s2]).
    rewrite (old_products_not_resolved s1) by
      (try exact Hwf1; intros i [<-|[<-|[]]]; cbn; lia).
    cbn. rewrite !Z.eqb_refl. cbn. rewrite orb_true_r. reflexivity. }
  unfold CreateOrder_mutate. rewrite Hget. cbv zeta. rewrite Hres.
  cbn [List.length Nat.eqb negb]. cbn [Order_create fst snd].
  eexists. split; [reflexivity|]. split; [reflexivity|].
  split; [reflexivity|].
  pose proof (Order_products_resolved
                (snd (Order_create s3 C (or_else date now)
                        (sum (map product_price [P1; P2]))))
                (mkOrder (Some (next_order_pk s3)) C (or_else date now)
                   (sum (map product_price [P1; P2])))
                [next_product_pk s1; next_product_pk s2] (next_order_pk s3)
                eq_refl) as Hset.
  unfold Product_filter_id_in in Hset, Hres.
  cbn [snd Order_create products] in Hset. rewrite Hres in Hset.
  exact Hset.
Qed.

(** ** An email is taken once *)

(** X15: an email that was just stored is taken.  After a successful
    [CreateCustomer], and for every customer a [BulkCreateCustomers]
    created, a [CreateCustomer] with the same email is refused with
    "Email already exists" and leaves the store as it is, whatever the
    name and the phone are. *)
Theorem stored_email_is_taken (s : Store price) :
  (forall name email phone name' phone',
     let run := CreateCustomer_mutate validate_email s name email phone in
     cc_success (fst run) = true ->
     CreateCustomer_mutate validate_email (snd run) name' email phone'
     = (mkCreateCustomer None false "Email already exists", snd run))
  /\ (forall records k name' phone',
        let run := BulkCreateCustomers_mutate validate_email s records in
        In k (created_customers (fst run)) ->
        CreateCustomer_mutate validate_email (snd run) name'
          (customer_email k) phone'
        = (mkCreateCustomer None false "Email already exists", snd run)).
Proof.
  split.
  - intros name email phone name' phone'. cbv zeta. intros Hok.
    destruct (CreateCustomer_record_cases s (mkCustomerInput name email phone))
      as [(_ & _ & _ & Hpass & _ & Hst)|(Hno & _)];
      unfold CreateCustomer_record in *;
      cbn [input_name input_email input_phone] in *; [|congruence].
    unfold record_passes in Hpass. cbn [input_email] in Hpass.
    apply andb_true_iff in Hpass. destruct Hpass as [Hpass _].
    apply andb_true_iff in Hpass. destruct Hpass as [Hv _].
    unfold CreateCustomer_mutate at 1. rewrite Hv, Hst.
    rewrite Customer_email_exists_saved. cbn [candidate customer_email].
    now rewrite String.eqb_refl, orb_true_r.
  - intros records k name' phone'. cbv zeta. intros Hk.
    rewrite BulkCreateCustomers_unfold in Hk |- *.
    cbn [fst snd created_customers] in *.
    assert (In (customer_email k)
              (map input_email
                 (filter (record_passes validate_email s) records))) as Hin.
    { apply (in_map customer_email) in Hk.
      rewrite assign_pks_emails, bulk_loop_created, map_map in Hk.
      exact Hk. }
    apply in_map_iff in Hin. destruct Hin as [c [Ec Hc]].
    apply filter_In in Hc. destruct Hc as [_ Hpass].
    unfold record_passes in Hpass.
    apply andb_true_iff in Hpass. destruct Hpass as [Hpass _].
    apply andb_true_iff in Hpass. destruct Hpass as [Hv _].
    rewrite Ec in Hv.
    assert (Customer_email_exists
              (snd (Customer_bulk_create s
                      (fst (bulk_loop validate_email s records))))
              (customer_email k) = true) as Hex.
    { apply Customer_email_exists_spec. exists k. split; [|reflexivity].
      cbn. apply in_or_app. now right. }
    unfold CreateCustomer_mutate. now rewrite Hv, Hex.
Qed.

End Further.

(* ================================================================== *)
(** * Further worked examples                                           *)
(* ================================================================== *)

Lemma shop_emails_unique : emails_unique shop.
Proof. repeat constructor. intros []. Qed.

Lemma six_records_emails : NoDup (map input_email six_records).
Proof.
  repeat constructor; cbn; intuition discriminate.
Qed.

Lemma shop_with_order_consistent : store_consistent shop_with_order.
Proof.
  split; [repeat split|]. split; [reflexivity|].
  constructor; [|constructor]. reflexivity.
Qed.

Lemma alice_order_stored : In alice_order (orders shop_with_order).
Proof. left. reflexivity. Qed.

Lemma CreateCustomer_phone_shape_witness :
  let run :=
    CreateCustomer_mutate sample_validate_email shop
      "Bob" "bob@example.com" (Some "123-456-7890") in
  (cc_success (fst run) = true
   <-> exists b, Re.phone_body b
                 /\ ("123-456-7890" = b
                     \/ "123-456-7890"
                        = (b ++ String Re.newline EmptyString)%string))
  /\ (cc_success (fst run) = true ->
      customers (snd run)
      = customers shop
          ++ [mkCustomer (Some (next_customer_pk shop)) "Bob"
                "bob@example.com" "123-456-7890"]).
Proof.
  apply (CreateCustomer_phone_shape sample_validate_email shop
           "Bob" "bob@example.com" "123-456-7890").
  - reflexivity.
  - apply fresh_in_shop. reflexivity.
  - discriminate.
Defined.

Lemma BulkCreateCustomers_sequential_witness :
  snd (BulkCreateCustomers_mutate sample_validate_email shop six_records)
  = create_each sample_validate_email shop six_records.
Proof.
  apply (BulkCreateCustomers_sequential sample_validate_email shop
           six_records).
  exact six_records_emails.
Defined.

Lemma CreateCustomer_keeps_emails_unique_witness :
  emails_unique
    (snd (CreateCustomer_mutate sample_validate_email shop
            "Bob" "bob@example.com" None)).
Proof.
  apply (CreateCustomer_keeps_emails_unique sample_validate_email shop).
  exact shop_emails_unique.
Defined.

Lemma BulkCreateCustomers_emails_unique_iff_witness :
  emails_unique
    (snd (BulkCreateCustomers_mutate sample_validate_email shop
            [bob_input; bob_input]))
  <-> NoDup (map input_email
               (filter (record_passes sample_validate_email shop)
                  [bob_input; bob_input])).
Proof.
  apply (BulkCreateCustomers_emails_unique_iff sample_validate_email shop).
  exact shop_emails_unique.
Defined.

Lemma CreateOrder_succeeds_iff_witness :
  co_success (fst (CreateOrder_mutate shop 1 [2; 1]%Z None 0)) = true
  <-> (exists c, In c (customers shop) /\ customer_pk c = Some 1%Z)
      /\ [2; 1]%Z <> []
      /\ NoDup [2; 1]%Z
      /\ forall i, In i [2; 1]%Z ->
           exists p, In p (products shop) /\ product_pk p = Some i.
Proof.
  apply (CreateOrder_succeeds_iff shop 1%Z [2; 1]%Z None 0%Z).
  exact shop_wf.
Defined.

Lemma CreateOrder_references_witness :
  let run := CreateOrder_mutate shop 1 [1; 2]%Z (Some 7%Z) 0 in
  exists order,
    co_order (fst run) = Some order
    /\ In (order_customer order) (customers shop)
    /\ customer_pk (order_customer order) = Some 1%Z
    /\ (forall p, In p (Order_products (snd run) order) ->
          In p (products shop)
          /\ exists i, In i [1; 2]%Z /\ product_pk p = Some i)
    /\ (forall t, Some 7%Z = Some t -> order_date order = t)
    /\ (Some 7%Z = None -> order_date order = 0%Z)
    /\ order_pk order = Some (next_order_pk shop).
Proof.
  apply (CreateOrder_references shop 1%Z [1; 2]%Z (Some 7%Z) 0%Z).
  reflexivity.
Defined.

Lemma resolvers_keep_store_valid_witness :
  store_valid sample_validate_email
    (snd (CreateCustomer_mutate sample_validate_email shop
            "Bob" "bob@example.com" (Some "123-456-7890")))
  /\ store_valid sample_validate_email
       (snd (BulkCreateCustomers_mutate sample_validate_email shop
               six_records))
  /\ store_valid sample_validate_email
       (snd (CreateProduct_mutate shop "P3" 9.99%Q 4))
  /\ store_valid sample_validate_email
       (snd (CreateOrder_mutate shop 1 [1; 2]%Z None 0)).
Proof.
  assert (Hshop : store_valid sample_validate_email shop)
    by (split; reflexivity).
  destruct (@resolvers_keep_store_valid Q Numeric_Q sample_validate_email)
    as (_ & H1 & H2 & H3 & H4).
  split; [|split; [|split]].
  - now apply H1.
  - now apply H2.
  - now apply H3.
  - now apply H4.
Defined.

Lemma stored_orders_keep_products_witness :
  Order_products
    (snd (CreateProduct_mutate shop_with_order "P3" 9.99%Q 4)) alice_order
  = Order_products shop_with_order alice_order
  /\ Order_products
       (snd (CreateOrder_mutate shop_with_order 1 [2]%Z None 5)) alice_order
     = Order_products shop_with_order alice_order.
Proof.
  destruct (stored_orders_keep_products shop_with_order alice_order
              (proj1 shop_with_order_consistent)
              (proj1 (proj2 shop_with_order_consistent))
              alice_order_stored) as [H1 H2].
  split; [apply H1 | apply H2].
Defined.

Lemma resolvers_keep_store_consistent_witness :
  store_consistent
    (snd (CreateCustomer_mutate sample_validate_email shop_with_order
            "Bob" "bob@example.com" None))
  /\ store_consistent
       (snd (BulkCreateCustomers_mutate sample_validate_email
               shop_with_order six_records))
  /\ store_consistent
       (snd (CreateProduct_mutate shop_with_order "P3" 9.99%Q 4))
  /\ store_consistent
       (snd (CreateOrder_mutate shop_with_order 1 [2]%Z None 5)).
Proof.
  destruct (@resolvers_keep_store_consistent Q Numeric_Q
              sample_validate_email) as (_ & H1 & H2 & H3 & H4).
  split; [|split; [|split]].
  - apply H1. exact shop_with_order_consistent.
  - apply H2. exact shop_with_order_consistent.
  - apply H3. exact shop_with_order_consistent.
  - apply H4. exact shop_with_order_consistent.
Defined.

Lemma created_customers_can_be_fetched_witness :
  (exists i,
     Some 2%Z = Some i
     /\ Customer_get shop i = None
     /\ Customer_get
          (snd (CreateCustomer_mutate sample_validate_email shop
                  "Bob" "bob@example.com" None)) i
        = Some (mkCustomer (Some 2%Z) "Bob" "bob@example.com" EmptyString))
  /\ (exists i,
        Some 3%Z = Some i
        /\ Customer_get shop i = None
        /\ Customer_get
             (snd (BulkCreateCustomers_mutate sample_validate_email shop
                     six_records)) i
           = Some (mkCustomer (Some 3%Z) "Carol" "carol@example.com"
                     EmptyString)).
Proof.
  destruct (created_customers_can_be_fetched sample_validate_email shop
              shop_wf) as [H1 H2].
  split.
  - apply (H1 "Bob" "bob@example.com" None
              (mkCustomer (Some 2%Z) "Bob" "bob@example.com" EmptyString)).
    reflexivity.
  - apply (H2 six_records
              (mkCustomer (Some 3%Z) "Carol" "carol@example.com"
                 EmptyString)).
    right. left. reflexivity.
Defined.

Lemma customer_products_order_witness :
  let r1 :=
    CreateCustomer_mutate sample_validate_email shop
      "Bob" "bob@example.com" None in
  let r2 := CreateProduct_mutate (snd r1) "P3" 9.99%Q 4 in
  let r3 := CreateProduct_mutate (snd r2) "P4" 0.01%Q 0 in
  exists C Pa Pb c i1 i2,
    cc_customer (fst r1) = Some C /\ customer_pk C = Some c
    /\ cp_product (fst r2) = Some Pa /\ product_pk Pa = Some i1
    /\ cp_product (fst r3) = Some Pb /\ product_pk Pb = Some i2
    /\ product_price Pa = 9.99%Q /\ product_price Pb = 0.01%Q
    /\ let r4 := CreateOrder_mutate (snd r3) c [i1; i2] None 5 in
       exists order,
         fst r4
         = mkCreateOrder (Some order) true "Order created successfully"
         /\ order_customer order = C
         /\ order_total_amount order
            = num_add (num_add num_zero 9.99%Q) 0.01%Q
         /\ Order_products (snd r4) order = [Pa; Pb].
Proof.
  apply (@customer_products_order Q Numeric_Q sample_validate_email shop
           "Bob" "bob@example.com" None "P3" 9.99%Q 4%Z "P4" 0.01%Q 0%Z
           None 5%Z).
  - exact shop_wf.
  - reflexivity.
  - reflexivity.
  - lia.
  - reflexivity.
  - lia.
Defined.

Lemma stored_email_is_taken_witness :
  CreateCustomer_mutate sample_validate_email
    (snd (CreateCustomer_mutate sample_validate_email shop
            "Bob" "bob@example.com" None))
    "Robert" "bob@example.com" (Some "12345")
  = (mkCreateCustomer None false "Email already exists",
     snd (CreateCustomer_mutate sample_validate_email shop
            "Bob" "bob@example.com" None))
  /\ CreateCustomer_mutate sample_validate_email
       (snd (BulkCreateCustomers_mutate sample_validate_email shop
               six_records))
       "Carol II" "carol@example.com" None
     = (mkCreateCustomer None false "Email already exists",
        snd (BulkCreateCustomers_mutate sample_validate_email shop
               six_records)).
Proof.
  destruct (stored_email_is_taken sample_validate_email shop) as [H1 H2].
  split.
  - apply (H1 "Bob" "bob@example.com" None "Robert" (Some "12345")).
    reflexivity.
  - apply (H2 six_records
              (mkCustomer (Some 3%Z) "Carol" "carol@example.com"
                 EmptyString) "Carol II" None).
    right. left. reflexivity.
Defined.

(** Two records of one batch with the same fresh email are both stored;
    two [CreateCustomer] calls store the first only. *)
Example same_email_in_one_batch :
  map customer_email
    (customers
       (snd (BulkCreateCustomers_mutate sample_validate_email shop
               [bob_input; bob_input])))
  = ["alice@example.com"; "bob@example.com"; "bob@example.com"]
  /\ map customer_email
       (customers
          (create_each sample_validate_email shop [bob_input; bob_input]))
     = ["alice@example.com"; "bob@example.com"].
Proof. split; reflexivity. Qed.
